(** * kamapack: divergence estimators and auxiliary definitions

    A shallow embedding of [kamapack/default_divergence.py] (the
    switchboard, the Naive and the Dirichlet divergence estimators), of
    [kamapack/_aux_definitions.py] (the posterior weight [measureMu] and the
    implicit relations) and of the constructors and divergence methods of
    [kamapack/estimate.py], followed by the properties of the specification
    that were checked on it.

    Arithmetic is exact: a numpy float is a real number, or no finite
    number at all. Rounding, overflow and underflow of binary64 are outside
    this model. *)

From Stdlib Require Import Reals Lra Lia ZArith List String Bool.
From Stdlib Require Import Permutation.
Import ListNotations.

Open Scope R_scope.

(** ** Python results *)

Module Py.

(** The exceptions the modelled code raises. [frame] names the function
    whose body (or whose call) raises, the way a traceback does: the
    switchboard and the two estimators raise an [IOError] with the very
    same message, and only the frame tells them apart. *)
Inductive exn : Type :=
| IOError (frame msg : string)
| TypeError (frame msg : string).

Inductive result (A : Type) : Type :=
| Return (a : A)
| Raise (e : exn).
Arguments Return {A} a.
Arguments Raise {A} e.

Definition bind {A B} (r : result A) (k : A -> result B) : result B :=
  match r with
  | Return a => k a
  | Raise e => Raise e
  end.

Definition fmap {A B} (f : A -> B) (r : result A) : result B :=
  bind r (fun a => Return (f a)).

Definition is_Return {A} (r : result A) : bool :=
  match r with
  | Return _ => true
  | Raise _ => false
  end.

(** A dict with string keys, in insertion order. *)
Fixpoint dict_get {V} (k : string) (d : list (string * V)) : option V :=
  match d with
  | [] => None
  | (k', v) :: d' => if String.eqb k k' then Some v else dict_get k d'
  end.

(** [x in l] for a list of strings. *)
Definition str_in (x : string) (l : list string) : bool :=
  existsb (String.eqb x) l.

End Py.

Notation "x <- r ;; k" := (Py.bind r (fun x => k))
  (at level 61, r at next level, right associativity).

(** ** numpy floats and arrays *)

Module Np.

(** A float: [Some r] is the finite value [r]; [None] stands for [inf],
    [-inf] and [nan], which numpy returns (with a RuntimeWarning, never
    an exception) from a division by zero or the logarithm of a number
    that is not positive. Such a value stays non-finite through [+] and
    [*]. The one operation that could bring it back, [x / inf = 0], occurs
    in the estimators only as the argument of [log], where it gives
    [-inf]: so [None] absorbs in every operation below. *)
Definition float := option R.

Definition Fin (r : R) : float := Some r.

Definition of_int (z : Z) : float := Fin (IZR z).

Definition lift2 (op : R -> R -> R) (x y : float) : float :=
  match x, y with
  | Some a, Some b => Some (op a b)
  | _, _ => None
  end.

Definition add : float -> float -> float := lift2 Rplus.
Definition mul : float -> float -> float := lift2 Rmult.

Definition div (x y : float) : float :=
  match x, y with
  | Some a, Some b => if Req_dec_T b 0 then None else Some (a / b)
  | _, _ => None
  end.

Definition log (x : float) : float :=
  match x with
  | Some a => if Rlt_dec 0 a then Some (ln a) else None
  | None => None
  end.

Definition sqrt (x : float) : float :=
  match x with
  | Some a => if Rle_dec 0 a then Some (R_sqrt.sqrt a) else None
  | None => None
  end.

(** One-dimensional arrays. *)
Fixpoint zipWith {A B C} (f : A -> B -> C) (u : list A) (v : list B) : list C :=
  match u, v with
  | x :: u', y :: v' => f x y :: zipWith f u' v'
  | _, _ => []
  end.

Definition of_ints (v : list Z) : list float := map of_int v.

(** array op array *)
Definition vadd : list float -> list float -> list float := zipWith add.
Definition vmul : list float -> list float -> list float := zipWith mul.
Definition vdiv : list float -> list float -> list float := zipWith div.
Definition vlog : list float -> list float := map log.

(** array op scalar, scalar op array *)
Definition vadd_s (v : list float) (s : float) : list float :=
  map (fun x => add x s) v.
Definition vdiv_s (v : list float) (s : float) : list float :=
  map (fun x => div x s) v.
Definition smul_v (s : float) (v : list float) : list float :=
  map (mul s) v.

(** [np.sum] of an integer array. *)
Definition sum (v : list Z) : Z := fold_right Z.add 0%Z v.

(** Sum of a float array; [0.0] when empty. *)
Definition fsum (v : list float) : float := fold_right add (Fin 0) v.

(** [np.dot] of two one-dimensional arrays. *)
Definition dot (u v : list float) : float := fsum (vmul u v).

(** [v > 0], [np.logical_and], and indexing by a boolean mask. *)
Definition gt0 (v : list Z) : list bool := map (Z.ltb 0) v.
Definition logical_and : list bool -> list bool -> list bool := zipWith andb.

Fixpoint select {A} (mask : list bool) (v : list A) : list A :=
  match mask, v with
  | m :: mask', x :: v' =>
      if m then x :: select mask' v' else select mask' v'
  | _, _ => []
  end.

End Np.

(** ** The compact count summaries

    The classes [Experiment_Compact] and [Divergence_Compact] are built by
    the front end ([estimate.py], [compact]); the estimators only read
    their attributes. The arrays [nn], [ff] (and [nn_A], [nn_B], [ff]) are
    the columns of one frequency-of-frequencies table, so the model stores
    the table by rows and the attributes are its columns. *)

Module Experiment_Compact.

Record t : Type := {
  N : Z;                      (* total number of counts *)
  K : Z;                      (* a priori number of categories *)
  Kobs : Z;                   (* observed number of categories *)
  hist : list (Z * Z)         (* (count value, number of categories) *)
}.

Definition nn (c : t) : list Z := map fst (hist c).
Definition ff (c : t) : list Z := map snd (hist c).

End Experiment_Compact.

Module Divergence_Compact.

Record row : Type := {
  cnt_A : Z;                  (* count in the first experiment *)
  cnt_B : Z;                  (* count in the second experiment *)
  freq : Z                    (* number of categories with these counts *)
}.

Record t : Type := {
  compact_A : Experiment_Compact.t;
  compact_B : Experiment_Compact.t;
  N_A : Z;
  N_B : Z;
  K : Z;
  table : list row
}.

Definition nn_A (c : t) : list Z := map cnt_A (table c).
Definition nn_B (c : t) : list Z := map cnt_B (table c).
Definition ff (c : t) : list Z := map freq (table c).

(** The invariant of the data model: counts are not negative, every row
    stands for at least one category, [sum(ff) == K] and
    [ff.dot(nn) == N] for each experiment. *)
Definition row_ok (r : row) : bool :=
  (0 <=? cnt_A r)%Z && (0 <=? cnt_B r)%Z && (1 <=? freq r)%Z.

Definition invariant (c : t) : bool :=
  forallb row_ok (table c)
  && (Np.sum (ff c) =? K c)%Z
  && (Np.sum (map (fun r => freq r * cnt_A r)%Z (table c)) =? N_A c)%Z
  && (Np.sum (map (fun r => freq r * cnt_B r)%Z (table c)) =? N_B c)%Z.

(** The two experiments exchanged. *)
Definition swap_row (r : row) : row :=
  {| cnt_A := cnt_B r; cnt_B := cnt_A r; freq := freq r |}.

Definition swap (c : t) : t :=
  {| compact_A := compact_B c; compact_B := compact_A c;
     N_A := N_B c; N_B := N_A c; K := K c;
     table := map swap_row (table c) |}.

(** The same summary over another table, totals unchanged; and a row
    with another count in the first experiment. *)
Definition with_table (c : t) (tbl : list row) : t :=
  {| compact_A := compact_A c; compact_B := compact_B c;
     N_A := N_A c; N_B := N_B c; K := K c; table := tbl |}.

Definition recount_A (x : Z) (r : row) : row :=
  {| cnt_A := x; cnt_B := cnt_B r; freq := freq r |}.

End Divergence_Compact.

(** ** default_divergence.py *)

Module default_divergence.

Import Py Np Divergence_Compact.
Local Open Scope string_scope.

Definition measure_msg : string :=
  "Choose `measure` between `Kullback-Leibler` and `Jensen-Shannon`.".

(** [Naive( compACT, measure="Kullback-Leibler" )] *)
Definition Naive (compACT : t) (measure : string) : result float :=
  let N_A := of_int (N_A compACT) in
  let N_B := of_int (N_B compACT) in
  let gtr0mask := logical_and (gt0 (nn_A compACT)) (gt0 (nn_B compACT)) in
  let nn_A := select gtr0mask (nn_A compACT) in
  let nn_B := select gtr0mask (nn_B compACT) in
  let ff := select gtr0mask (ff compACT) in
  let hh_A := vdiv_s (of_ints nn_A) N_A in
  let hh_B := vdiv_s (of_ints nn_B) N_B in
  if measure =? "Kullback-Leibler" then
    Return (dot (of_ints ff) (vmul hh_A (vlog (vdiv hh_A hh_B))))
  else if measure =? "Jensen-Shannon" then
    let mm_AB := smul_v (Fin 0.5) (vadd hh_A hh_B) in
    Return (mul (Fin 0.5)
              (dot (of_ints ff)
                 (vadd (vmul hh_A (vlog (vdiv hh_A mm_AB)))
                       (vmul hh_B (vlog (vdiv hh_B mm_AB))))))
  else
    Raise (IOError "Naive" measure_msg).

(** [Dirichlet( compACT, a, b, measure="Kullback-Leibler" )] *)
Definition Dirichlet (compACT : t) (a b : float) (measure : string)
  : result float :=
  let N_A := of_int (N_A compACT) in
  let N_B := of_int (N_B compACT) in
  let nn_A := of_ints (nn_A compACT) in
  let nn_B := of_ints (nn_B compACT) in
  let ff := ff compACT in
  let nn_A_a := vadd_s nn_A a in
  let nn_B_b := vadd_s nn_B b in
  let N_A_a := add N_A (mul a (of_int (Np.sum ff))) in
  let N_B_b := add N_B (mul b (of_int (Np.sum ff))) in
  let hh_A_a := vdiv_s nn_A_a N_A_a in
  let hh_B_b := vdiv_s nn_B_b N_B_b in
  if measure =? "Kullback-Leibler" then
    Return (dot (of_ints ff) (vmul hh_A_a (vlog (vdiv hh_A_a hh_B_b))))
  else if measure =? "Jensen-Shannon" then
    let mm_AB_ab := smul_v (Fin 0.5) (vadd hh_A_a hh_B_b) in
    Return (mul (Fin 0.5)
              (dot (of_ints ff)
                 (vadd (vmul hh_A_a (vlog (vdiv hh_A_a mm_AB_ab)))
                       (vmul hh_B_b (vlog (vdiv hh_B_b mm_AB_ab))))))
  else
    Raise (IOError "Dirichlet" measure_msg).

(** The logarithm units. *)
Definition _unit_Dict_ : list (string * float) :=
  [ ("ln", Fin 1);
    ("log2", div (Fin 1) (log (Fin 2)));
    ("log10", div (Fin 1) (log (Fin 10))) ].

(** [unit in _unit_Dict_.keys()] then [_unit_Dict_[unit]]; [unit] is
    [None] when the argument is left out. *)
Definition unit_lookup (unit : option string) : option float :=
  match unit with
  | Some u => dict_get u _unit_Dict_
  | None => None
  end.

(** A call [f( ..., **kwargs )] of a function that takes no further
    keyword: any keyword left in [kwargs] is a [TypeError] at the call,
    before the body of [f] runs. Only the names of the keywords matter. *)
Definition call_with {A} (callee : string) (kwargs : list string)
           (body : result A) : result A :=
  match kwargs with
  | [] => body
  | _ :: _ => Raise (TypeError "switchboard" callee)
  end.

Section Switchboard.

(** [cmw_divergence.CamagliaMoraWalczak], a module of the package that
    the switchboard imports and only calls. *)
Variable CamagliaMoraWalczak : t -> list string -> result float.

(** [switchboard( compACT, method="naive", unit=None,
                  measure="Kullback-Leibler", **kwargs )].
    [Kobs] is a numpy integer ([obs_n_categ] in estimate.py), so [1./Kobs]
    at [Kobs = 0] is [inf] with a warning, not a ZeroDivisionError. *)
Definition switchboard (compACT : t) (method : string)
           (unit : option string) (measure : string)
           (kwargs : list string) : result float :=
  match unit_lookup unit with
  | None => Raise (IOError "switchboard" "Unknown unit, please choose amongst ")
  | Some unit_conv =>
    if negb (str_in measure ["Kullback-Leibler"; "Jensen-Shannon"]) then
      Raise (IOError "switchboard" measure_msg)
    else
      dkl_estimate <-
        (if method =? "naive" then
           call_with "Naive" kwargs (Naive compACT measure)
         else if method =? "CMW" then
           if negb (measure =? "Kullback-Leibler") then
             Raise (IOError "switchboard"
                      "Unknown method `CMW` for the chosen measure.")
           else CamagliaMoraWalczak compACT kwargs
         else if method =? "Jeffreys" then
           let a := Fin 0.5 in
           let b := Fin 0.5 in
           call_with "Dirichlet" kwargs (Dirichlet compACT a b measure)
         else if method =? "Laplace" then
           let a := Fin 1 in
           let b := Fin 1 in
           call_with "Dirichlet" kwargs (Dirichlet compACT a b measure)
         else if method =? "SG" then
           let a := div (Fin 1)
                        (of_int (Experiment_Compact.Kobs (compact_A compACT))) in
           let b := div (Fin 1)
                        (of_int (Experiment_Compact.Kobs (compact_B compACT))) in
           call_with "Dirichlet" kwargs (Dirichlet compACT a b measure)
         else if method =? "minimax" then
           let a := div (sqrt (of_int (N_A compACT)))
                        (of_int (Experiment_Compact.Kobs (compact_A compACT))) in
           let b := div (sqrt (of_int (N_B compACT)))
                        (of_int (Experiment_Compact.Kobs (compact_B compACT))) in
           call_with "Dirichlet" kwargs (Dirichlet compACT a b measure)
         else
           Raise (IOError "switchboard" "The chosen method is unknown.")) ;;
      Return (mul unit_conv dkl_estimate)
  end.

End Switchboard.

End default_divergence.

(** ** _aux_definitions.py *)

Module aux_definitions.

Import Np.

Section Notation.

(** [scipy.special.loggamma(x).real] and [scipy.special.polygamma(n, x)]:
    library functions, finite on the positive reals, which is where the
    properties below are stated. *)
Variable loggamma : R -> R.
Variable polygamma : nat -> R -> R.

Definition diGmm (x : R) : R := polygamma 0 x.
Definition triGmm (x : R) : R := polygamma 1 x.
Definition D_diGmm (x y : R) : R := diGmm x - diGmm y.
Definition D_triGmm (x y : R) : R := triGmm x - triGmm y.
Definition LogGmm (x : R) : R := loggamma x.

(** [u.dot(v)] on arrays of finite numbers. *)
Definition rdot (u v : list R) : R :=
  fold_right Rplus 0 (zipWith Rmult u v).

(** [measureMu( alpha, compACT )]; [mp.exp] has no overflow and no
    underflow, it is the exponential. *)
Definition measureMu (alpha : R) (compACT : Experiment_Compact.t) : R :=
  let N := IZR (Experiment_Compact.N compACT) in
  let nn := map IZR (Experiment_Compact.nn compACT) in
  let ff := map IZR (Experiment_Compact.ff compACT) in
  let K := IZR (Experiment_Compact.K compACT) in
  let LogMu := LogGmm (K * alpha) - K * LogGmm alpha in
  let LogMu :=
    LogMu + (rdot ff (map LogGmm (map (fun n => n + alpha) nn))
             - LogGmm (N + K * alpha)) in
  exp LogMu.

(** [scipy.optimize.brentq(f, a, b, args, xtol, maxiter)], the
    library's root finder on binary64 numbers; it returns a root or
    raises. *)
Variable brentq : (R -> R) -> R -> R -> R -> nat -> Py.result R.

Definition default_maxiter : nat := 100.
Definition default_xtol : R := / 10 ^ 20.

(** [get_from_implicit( implicit_relation, y, lower, upper, *args,
                        maxiter=100, xtol=1.e-20 )]: the relation is
    called as [implicit_relation(x, y, *args)]. *)
Definition get_from_implicit {A} (implicit_relation : R -> R -> A -> R)
           (y lower upper : R) (args : A) (maxiter : nat) (xtol : R)
  : Py.result R :=
  brentq (fun x => implicit_relation x y args) lower upper xtol maxiter.

(** [implicit_entropy_vs_alpha( alpha, entropy, K )] *)
Definition implicit_entropy_vs_alpha (alpha entropy K : R) : R :=
  D_diGmm (K * alpha + 1) (alpha + 1) - entropy.

(** [implicit_crossentropy_vs_beta( beta, crossentropy, K )] *)
Definition implicit_crossentropy_vs_beta (beta crossentropy K : R) : R :=
  D_diGmm (K * beta) beta - crossentropy.

End Notation.

End aux_definitions.

(** ** The specification's formulas

    Definitions written from the specification's words, to be compared with
    the code above. *)

Module Spec.

Import Py Np Divergence_Compact.
Local Open Scope string_scope.

(** Section 4.5: the Kullback-Leibler summand [h_A log(h_A/h_B)] and the
    Jensen-Shannon summand against the midpoint [m = (h_A+h_B)/2]. *)
Definition KL_term (hA hB : float) : float :=
  mul hA (log (div hA hB)).

Definition JS_term (hA hB : float) : float :=
  let m := mul (Fin 0.5) (add hA hB) in
  add (mul hA (log (div hA m))) (mul hB (log (div hB m))).

(** The divergence of a table of (multiplicity, h_A, h_B). *)
Definition divergence (measure : string) (frame : string)
           (rows : list (Z * float * float)) : result float :=
  if measure =? "Kullback-Leibler" then
    Return (fsum (map (fun '(f, hA, hB) => mul (of_int f) (KL_term hA hB)) rows))
  else if measure =? "Jensen-Shannon" then
    Return (mul (Fin 0.5)
              (fsum (map (fun '(f, hA, hB) => mul (of_int f) (JS_term hA hB)) rows)))
  else
    Raise (IOError frame default_divergence.measure_msg).

(** A table row with its two frequencies exchanged. *)
Definition flip (x : Z * float * float) : Z * float * float :=
  let '(f, hA, hB) := x in (f, hB, hA).

(** Section 4.5: rows with a zero count in either experiment are left
    out; frequencies are [nn/N]. *)
Definition observed_in_both (r : row) : bool :=
  (0 <? cnt_A r)%Z && (0 <? cnt_B r)%Z.

Definition Naive_spec (c : t) (measure : string) : result float :=
  divergence measure "Naive"
    (map (fun r => (freq r,
                    div (of_int (cnt_A r)) (of_int (N_A c)),
                    div (of_int (cnt_B r)) (of_int (N_B c))))
         (filter observed_in_both (table c))).

(** Section 4.6: every row is kept; frequencies are
    [(nn_A + a) / (N_A + a K)] and [(nn_B + b) / (N_B + b K)] with [K] the
    a priori number of categories. *)
Definition adjusted (n : Z) (a : float) (N K : Z) : float :=
  div (add (of_int n) a) (add (of_int N) (mul a (of_int K))).

Definition Dirichlet_spec (c : t) (a b : float) (measure : string)
  : result float :=
  divergence measure "Dirichlet"
    (map (fun r => (freq r,
                    adjusted (cnt_A r) a (N_A c) (K c),
                    adjusted (cnt_B r) b (N_B c) (K c)))
         (table c)).

(** Section 4.7: the pseudocounts of each named method, in float
    arithmetic, and as real numbers. *)
Definition pseudocounts (method : string) (c : t) : option (float * float) :=
  let Kobs_A := of_int (Experiment_Compact.Kobs (compact_A c)) in
  let Kobs_B := of_int (Experiment_Compact.Kobs (compact_B c)) in
  if method =? "Jeffreys" then Some (Fin 0.5, Fin 0.5)
  else if method =? "Laplace" then Some (Fin 1, Fin 1)
  else if method =? "SG" then Some (div (Fin 1) Kobs_A, div (Fin 1) Kobs_B)
  else if method =? "minimax" then
    Some (div (sqrt (of_int (N_A c))) Kobs_A,
          div (sqrt (of_int (N_B c))) Kobs_B)
  else None.

Definition real_pseudocounts (method : string) (c : t) : option (R * R) :=
  let Kobs_A := IZR (Experiment_Compact.Kobs (compact_A c)) in
  let Kobs_B := IZR (Experiment_Compact.Kobs (compact_B c)) in
  if method =? "Jeffreys" then Some (0.5, 0.5)
  else if method =? "Laplace" then Some (1, 1)
  else if method =? "SG" then Some (1 / Kobs_A, 1 / Kobs_B)
  else if method =? "minimax" then
    Some (R_sqrt.sqrt (IZR (N_A c)) / Kobs_A,
          R_sqrt.sqrt (IZR (N_B c)) / Kobs_B)
  else None.

(** Section 4.7: the conversion factor of each unit. *)
Definition unit_factor (unit : string) : option R :=
  if unit =? "ln" then Some 1
  else if unit =? "log2" then Some (1 / ln 2)
  else if unit =? "log10" then Some (1 / ln 10)
  else None.

(** Section 4.7: the accepted units, measures and methods. *)
Definition valid_unit (unit : option string) : bool :=
  match unit with
  | Some u => str_in u ["ln"; "log2"; "log10"]
  | None => false
  end.

Definition valid_measure (measure : string) : bool :=
  str_in measure ["Kullback-Leibler"; "Jensen-Shannon"].

Definition known_method (method : string) : bool :=
  str_in method ["naive"; "CMW"; "Jeffreys"; "Laplace"; "SG"; "minimax"].

(** Section 4.2: the posterior weight. *)
Definition LogMu_spec (loggamma : R -> R) (alpha : R)
           (c : Experiment_Compact.t) : R :=
  let K := IZR (Experiment_Compact.K c) in
  let N := IZR (Experiment_Compact.N c) in
  loggamma (K * alpha) - K * loggamma alpha
  + fold_right Rplus 0
      (map (fun '(n, f) => IZR f * loggamma (IZR n + alpha))
           (Experiment_Compact.hist c))
  - loggamma (N + K * alpha).

End Spec.

(** ** Example summaries *)

Module Examples.

Import Divergence_Compact.

Definition experiment (N K Kobs : Z) (hist : list (Z * Z))
  : Experiment_Compact.t :=
  {| Experiment_Compact.N := N; Experiment_Compact.K := K;
     Experiment_Compact.Kobs := Kobs; Experiment_Compact.hist := hist |}.

Definition R3 (nA nB f : Z) : row :=
  {| cnt_A := nA; cnt_B := nB; freq := f |}.

(** Two identical experiments over two categories, one of them never
    observed: counts (0, 1) in both. *)
Definition twin : t :=
  {| compact_A := experiment 1 2 1 [(0, 1); (1, 1)]%Z;
     compact_B := experiment 1 2 1 [(0, 1); (1, 1)]%Z;
     N_A := 1; N_B := 1; K := 2;
     table := [R3 0 0 1; R3 1 1 1] |}.

(** Counts (1, 2) against (2, 1): the frequencies (1/3, 2/3) and
    (2/3, 1/3) differ and mirror each other. *)
Definition mirror : t :=
  {| compact_A := experiment 3 2 2 [(1, 1); (2, 1)]%Z;
     compact_B := experiment 3 2 2 [(2, 1); (1, 1)]%Z;
     N_A := 3; N_B := 3; K := 2;
     table := [R3 1 2 1; R3 2 1 1] |}.

(** Counts (1, 1) against (1, 0). *)
Definition lopsided : t :=
  {| compact_A := experiment 2 2 2 [(1, 1); (1, 1)]%Z;
     compact_B := experiment 1 2 1 [(1, 1); (0, 1)]%Z;
     N_A := 2; N_B := 1; K := 2;
     table := [R3 1 1 1; R3 1 0 1] |}.

(** Three categories; the second one has [x] counts in the first
    experiment and none in the second. *)
Definition excl (x : Z) : t :=
  {| compact_A := experiment (1 + x) 3 2 [(1, 1); (x, 1); (0, 1)]%Z;
     compact_B := experiment 2 3 2 [(1, 1); (0, 1); (1, 1)]%Z;
     N_A := 1 + x; N_B := 2; K := 3;
     table := [R3 1 1 1; R3 x 0 1; R3 0 1 1] |}.

(** Stirling's approximation of log-gamma, a stand-in for the library
    function in the instances below. *)
Definition stirling (x : R) : R :=
  (x - 1 / 2) * ln x - x + ln (2 * PI) / 2.

(** A stand-in for the CMW estimator, for the instances below. *)
Definition no_CMW (c : t) (kwargs : list string) : Py.result Np.float :=
  Py.Raise (Py.TypeError "CamagliaMoraWalczak" "not available").

End Examples.

(** ** Tables of finite frequencies *)

Module Weights.

(** A row (multiplicity, h_A, h_B) of finite frequencies, as floats. *)
Definition lift_row (x : Z * R * R) : Z * Np.float * Np.float :=
  let '(f, hA, hB) := x in (f, Np.Fin hA, Np.Fin hB).

(** The total frequency of each experiment over a table. *)
Definition weight_A (rows : list (Z * R * R)) : R :=
  fold_right Rplus 0 (map (fun '(f, hA, _) => IZR f * hA) rows).

Definition weight_B (rows : list (Z * R * R)) : R :=
  fold_right Rplus 0 (map (fun '(f, _, hB) => IZR f * hB) rows).

(** Rows with a positive multiplicity and positive frequencies. *)
Definition positive_row (x : Z * R * R) : Prop :=
  let '(f, hA, hB) := x in 0 < IZR f /\ 0 < hA /\ 0 < hB.

(** The frequencies the two estimators use, as real numbers: those of
    the Dirichlet estimator over every row, those of the Naive estimator
    over the rows observed in both experiments. *)
Definition Dirichlet_table (c : Divergence_Compact.t) (a b : R)
  : list (Z * R * R) :=
  let S := IZR (Np.sum (Divergence_Compact.ff c)) in
  map (fun r =>
         (Divergence_Compact.freq r,
          (IZR (Divergence_Compact.cnt_A r) + a)
          / (IZR (Divergence_Compact.N_A c) + a * S),
          (IZR (Divergence_Compact.cnt_B r) + b)
          / (IZR (Divergence_Compact.N_B c) + b * S)))
      (Divergence_Compact.table c).

Definition Naive_table (c : Divergence_Compact.t) : list (Z * R * R) :=
  map (fun r =>
         (Divergence_Compact.freq r,
          IZR (Divergence_Compact.cnt_A r) / IZR (Divergence_Compact.N_A c),
          IZR (Divergence_Compact.cnt_B r) / IZR (Divergence_Compact.N_B c)))
      (filter Spec.observed_in_both (Divergence_Compact.table c)).

End Weights.

(** ** estimate.py *)

Module estimate.

Import Py Np default_divergence.
Local Open Scope string_scope.

(** Keyword arguments of a call, name and value. The values these calls
    give ([which], [unit], [measure]) are strings. *)
Definition keywords : Type := list (string * string).

Section Calls.

(** [cmw_divergence.CamagliaMoraWalczak( compACT, **kwargs )], with the
    keywords it receives, values included. *)
Variable CamagliaMoraWalczak :
  Divergence_Compact.t -> keywords -> result float.

(** The call
    [default_divergence.switchboard( self.compact(), which=..., method=method,
                                     unit=unit, **kwargs )]
    of the methods of [Divergence], with [unit=unit] present or not.
    [compACT] is the value of [self.compact()]. A keyword given twice is a
    [TypeError] of the call; [which] is no parameter of the switchboard and
    lands in its [**kwargs], with every keyword that is not [unit] or
    [measure]. The switchboard hands its [**kwargs] on as they are: it is
    given their names, and the estimator it calls for [CMW] is the CMW
    estimator on these same keywords with their values, [which=...]
    first. *)
Definition call_switchboard (caller : string)
           (compACT : Divergence_Compact.t) (which method : string)
           (unit : option (option string)) (kwargs : keywords)
  : result float :=
  let names := map fst kwargs in
  let explicit :=
    "which" :: "method" :: match unit with Some _ => ["unit"] | None => [] end in
  if existsb (fun k => str_in k explicit) names then
    Raise (TypeError caller "got multiple values for keyword argument")
  else if str_in "compACT" names then
    Raise (TypeError caller "got multiple values for argument compACT")
  else
    let unit' := match unit with
                 | Some u => u
                 | None => dict_get "unit" kwargs
                 end in
    let measure := match dict_get "measure" kwargs with
                   | Some m => m
                   | None => "Kullback-Leibler"
                   end in
    let rest : keywords :=
      ("which", which)
        :: filter (fun kv => negb (str_in (fst kv) ["unit"; "measure"]))
             kwargs in
    switchboard (fun compACT' _ => CamagliaMoraWalczak compACT' rest)
                compACT method unit' measure (map fst rest).

(** [Divergence.kullback_leibler( self, method="naive", unit="ln", **kwargs )] *)
Definition kullback_leibler (compACT : Divergence_Compact.t)
           (method : string) (unit : option string) (kwargs : keywords)
  : result float :=
  call_switchboard "kullback_leibler" compACT "Kullback-Leibler" method
                   (Some unit) kwargs.

(** [Divergence.jensen_shannon( self, method="naive", unit="ln", **kwargs )] *)
Definition jensen_shannon (compACT : Divergence_Compact.t)
           (method : string) (unit : option string) (kwargs : keywords)
  : result float :=
  call_switchboard "jensen_shannon" compACT "Jensen-Shannon" method
                   (Some unit) kwargs.

(** [Divergence.hellinger( self, method="naive", **kwargs )] *)
Definition hellinger (compACT : Divergence_Compact.t)
           (method : string) (kwargs : keywords) : result float :=
  call_switchboard "hellinger" compACT "Hellinger" method None kwargs.

End Calls.

(** *** pandas: labelled series, [groupby(...).size()], item assignment *)

(** An index label: an integer (a position of a [RangeIndex], a key) or a
    string. *)
Inductive label : Type :=
| LInt (z : Z)
| LStr (s : string).

Definition label_eqb (a b : label) : bool :=
  match a, b with
  | LInt x, LInt y => (x =? y)%Z
  | LStr x, LStr y => (x =? y)%string
  | _, _ => false
  end.

(** A series of integer counts, with unique labels (a series made from a
    dict or from a list has them). *)
Definition Series : Type := list (label * Z).

Section GroupBy.

Context {K : Type}.
Variable eqb : K -> K -> bool.
Variable leb : K -> K -> bool.

(** One more occurrence of the key [k]. *)
Fixpoint incr (k : K) (m : list (K * Z)) : list (K * Z) :=
  match m with
  | [] => [(k, 1%Z)]
  | (k', v) :: m' =>
      if eqb k k' then (k', (v + 1)%Z) :: m' else (k', v) :: incr k m'
  end.

(** [m.sort_index()], ascending. *)
Fixpoint insert_sorted (e : K * Z) (m : list (K * Z)) : list (K * Z) :=
  match m with
  | [] => [e]
  | e' :: m' =>
      if leb (fst e) (fst e') then e :: m else e' :: insert_sorted e m'
  end.

Definition sort_index (m : list (K * Z)) : list (K * Z) :=
  fold_right insert_sorted [] m.

(** [x.groupby(x).size()]: how many times each value occurs, by
    ascending value. *)
Definition groupby_size (l : list K) : list (K * Z) :=
  sort_index (fold_left (fun m k => incr k m) l []).

(** [m[k] = v]: the entry of label [k] is overwritten, or appended when
    there is none. *)
Fixpoint setitem (k : K) (v : Z) (m : list (K * Z)) : list (K * Z) :=
  match m with
  | [] => [(k, v)]
  | (k', v') :: m' =>
      if eqb k k' then (k', v) :: m' else (k', v') :: setitem k v m'
  end.

(** The entry of label [k], zero when there is none. *)
Fixpoint get0 (k : K) (m : list (K * Z)) : Z :=
  match m with
  | [] => 0%Z
  | (k', v) :: m' => if eqb k k' then v else get0 k m'
  end.

Definition has_key (k : K) (m : list (K * Z)) : bool :=
  existsb (fun e => eqb k (fst e)) m.

End GroupBy.

Definition pair_eqb (a b : Z * Z) : bool :=
  ((fst a =? fst b) && (snd a =? snd b))%Z.

Definition pair_leb (a b : Z * Z) : bool :=
  ((fst a <? fst b) || ((fst a =? fst b) && (snd a <=? snd b)))%Z.

(** [pd.concat( [s1, s2], axis=1 ).replace(np.nan, 0).astype(int)] on two
    series whose labels are distinct within each: one row per label of
    either series, a missing count is zero. *)
Definition concat (s1 s2 : Series) : list (label * (Z * Z)) :=
  (map (fun e => (fst e, (snd e, get0 label_eqb (fst e) s2))) s1
   ++ map (fun e => (fst e, (0%Z, snd e)))
        (filter (fun e => negb (has_key label_eqb (fst e) s1)) s2))%list.

(** *** Skeleton_Class *)

(** The argument [categories] of [_update_categories]: [None], a value
    [int()] turns into [z], or a value on which [int()] fails. *)
Inductive categories_arg : Type :=
| CatNone
| CatInt (z : Z)
| CatNotInt.

Definition categories_warning : string :=
  "The parameter `categories` is set equal to the observed number of categories.".

(** [np.max] of a scalar or of a series that is not empty. *)
Definition np_max (x : Z) (xs : list Z) : Z := fold_left Z.max xs x.

(** [_update_categories( self, categories )]: the new [usr_n_categ] and
    the warnings; [obs] and [more_obs] are the values of
    [self.obs_n_categ]. *)
Definition _update_categories (obs : Z) (more_obs : list Z)
           (categories : categories_arg) : result (Z * list string) :=
  let obs_n_categ := np_max obs more_obs in
  match categories with
  | CatNone => Return (obs_n_categ, [])
  | CatNotInt =>
      Raise (TypeError "_update_categories"
               "The parameter `categories` must be an integer.")
  | CatInt categories =>
      if (categories >? obs_n_categ)%Z then Return (categories, [])
      else
        Return (obs_n_categ,
                if (categories <? obs_n_categ)%Z
                then [categories_warning] else [])
  end.

(** *** Experiment *)

Record Experiment : Type := {
  data_hist : Series;
  tot_counts : Z;
  obs_n_categ : Z;
  counts_hist : list (Z * Z);
  obs_coincedences : Z;
  usr_n_categ : Z
}.

(** The argument [data_hist] of the constructor, with integer counts: a
    dict, a data frame (its first column and the number of further
    columns), a series, a list or array of integers, or anything else. *)
Inductive data_arg : Type :=
| DictArg (d : list (label * Z))
| DataFrameArg (first : Series) (others : nat)
| SeriesArg (s : Series)
| ListArg (l : list Z)
| OtherArg.

Definition columns_warning : string :=
  "The parameter `data` contained multiple columns, only the first one is considered.".

(** [pd.Series( l )]: positions as labels. *)
Definition enumerate (l : list Z) : Series :=
  combine (map (fun i => LInt (Z.of_nat i)) (seq 0 (List.length l))) l.

Definition load_data (data : data_arg) (ishist : bool)
  : result (Series * list string) :=
  match data with
  | DictArg d => Return (d, [])
  | DataFrameArg first others =>
      Return (first,
              match others with O => [] | S _ => [columns_warning] end)
  | SeriesArg s => Return (s, [])
  | ListArg l =>
      if ishist then Return (enumerate l, [])
      else
        Return (map (fun e => (LInt (fst e), snd e))
                    (groupby_size Z.eqb Z.leb l), [])
  | OtherArg =>
      Raise (TypeError "Experiment" "The parameter `data` has unsopported type.")
  end.

(** [Experiment.__init__( self, data_hist, categories=2, ishist=True )]
    for an integer [categories]: the object and the warnings. *)
Definition Experiment_init (data : data_arg) (categories : Z) (ishist : bool)
  : result (Experiment * list string) :=
  loaded <- load_data data ishist ;;
  let data_hist := fst loaded in
  let values := map snd data_hist in
  let tot_counts := Np.sum values in
  let obs_n_categ := Z.of_nat (List.length (filter (Z.ltb 0) values)) in
  let counts_hist := groupby_size Z.eqb Z.leb values in
  let obs_coincedences :=
    Np.sum (map snd (filter (fun e => (1 <? fst e)%Z) counts_hist)) in
  let categories := Z.max categories (Z.of_nat (List.length data_hist)) in
  updated <- _update_categories obs_n_categ [] (CatInt categories) ;;
  let usr_n_categ := fst updated in
  let counts_hist :=
    if (usr_n_categ >? obs_n_categ)%Z then
      sort_index Z.leb
        (setitem Z.eqb 0%Z (usr_n_categ - obs_n_categ)%Z counts_hist)
    else counts_hist in
  Return ({| data_hist := data_hist; tot_counts := tot_counts;
             obs_n_categ := obs_n_categ; counts_hist := counts_hist;
             obs_coincedences := obs_coincedences;
             usr_n_categ := usr_n_categ |},
          (snd loaded ++ snd updated)%list).

(** *** Divergence *)

Record Divergence : Type := {
  div_tot_counts : Z * Z;
  div_data_hist : list (label * (Z * Z));
  div_obs_n_categ : Z * Z * Z;          (* Exp-1, Exp-2, Union *)
  div_usr_n_categ : Z;
  div_counts_hist : list ((Z * Z) * Z);
  exp_1 : Experiment;
  exp_2 : Experiment
}.

(** The copy [self.exp_i] of an experiment: a new [Experiment] of its
    [data_hist], its categories updated, its [counts_hist] replaced. *)
Definition copy_experiment (e : Experiment) (usr : Z)
           (counts : list (Z * Z)) : result (Experiment * list string) :=
  made <- Experiment_init (SeriesArg (data_hist e)) 2%Z true ;;
  updated <- _update_categories (obs_n_categ (fst made)) [] (CatInt usr) ;;
  Return ({| data_hist := data_hist (fst made);
             tot_counts := tot_counts (fst made);
             obs_n_categ := obs_n_categ (fst made);
             counts_hist := counts;
             obs_coincedences := obs_coincedences (fst made);
             usr_n_categ := fst updated |},
          (snd made ++ snd updated)%list).

(** [Divergence.__init__( self, my_exp_1, my_exp_2, categories=None )] on
    two [Experiment] objects (the argument [categories] is then not
    read). *)
Definition Divergence_init (my_exp_1 my_exp_2 : Experiment)
  : result (Divergence * list string) :=
  let df := concat (data_hist my_exp_1) (data_hist my_exp_2) in
  let union :=
    Z.of_nat (List.length (filter (fun e => ((0 <? fst (snd e)) || (0 <? snd (snd e)))%Z)
                             df)) in
  let categories :=
    np_max (usr_n_categ my_exp_1) [usr_n_categ my_exp_2; union] in
  updated <- _update_categories (obs_n_categ my_exp_1)
               [obs_n_categ my_exp_2; union] (CatInt categories) ;;
  let usr := fst updated in
  let counts_hist := groupby_size pair_eqb pair_leb (map snd df) in
  let counts_hist :=
    if (usr >? union)%Z then
      sort_index pair_leb
        (setitem pair_eqb (0%Z, 0%Z) (usr - union)%Z counts_hist)
    else counts_hist in
  copy_1 <- copy_experiment my_exp_1 usr
              (map (fun e => (fst (fst e), snd e)) counts_hist) ;;
  copy_2 <- copy_experiment my_exp_2 usr
              (map (fun e => (snd (fst e), snd e)) counts_hist) ;;
  Return ({| div_tot_counts := (tot_counts my_exp_1, tot_counts my_exp_2);
             div_data_hist := df;
             div_obs_n_categ :=
               (obs_n_categ my_exp_1, obs_n_categ my_exp_2, union);
             div_usr_n_categ := usr;
             div_counts_hist := counts_hist;
             exp_1 := fst copy_1;
             exp_2 := fst copy_2 |},
          (snd updated ++ snd copy_1 ++ snd copy_2)%list).

End estimate.

(** ** Sums over tables of counts *)

Module Tally.

(** The sum of [g(key) * count] over a table, and the sum of its
    counts. *)
Definition wsum {K} (g : K -> Z) (m : list (K * Z)) : Z :=
  Np.sum (map (fun e => (g (fst e) * snd e)%Z) m).

Definition total {K} (m : list (K * Z)) : Z := Np.sum (map snd m).

Definition keys {K} (m : list (K * Z)) : list K := map fst m.

(** How many elements of a list satisfy a test. *)
Definition count {X} (p : X -> bool) (l : list X) : Z :=
  Z.of_nat (List.length (filter p l)).

End Tally.

(** ** Example experiments *)

Module EstimateExamples.

Import estimate.

(** The experiment of the dict [{"x": 2, "y": 0}] and that of
    [{"y": 1, "z": 3}], with two categories each. *)
Definition exp_a : Experiment :=
  {| data_hist := [(LStr "x", 2); (LStr "y", 0)]%Z;
     tot_counts := 2; obs_n_categ := 1;
     counts_hist := [(0, 1); (2, 1)]%Z;
     obs_coincedences := 1; usr_n_categ := 2 |}.

Definition exp_b : Experiment :=
  {| data_hist := [(LStr "y", 1); (LStr "z", 3)]%Z;
     tot_counts := 4; obs_n_categ := 2;
     counts_hist := [(1, 1); (3, 1)]%Z;
     obs_coincedences := 1; usr_n_categ := 2 |}.

(** A stand-in for the CMW estimator in the instances below; it reads
    its keyword [which]: 1 for Kullback-Leibler, 2 for another value. *)
Definition which_CMW (c : Divergence_Compact.t) (kwargs : keywords)
  : Py.result Np.float :=
  match Py.dict_get "which" kwargs with
  | Some w => if (w =? "Kullback-Leibler")%string then Py.Return (Np.Fin 1)
              else Py.Return (Np.Fin 2)
  | None => Py.Raise (Py.TypeError "CamagliaMoraWalczak" "which")
  end.

End EstimateExamples.

(** * Properties *)

(** ** Arrays *)

Section Arrays.

Import Np.

Lemma zipWith_map {X A B C} (f : A -> B -> C) (g : X -> A) (h : X -> B)
      (l : list X) :
  zipWith f (map g l) (map h l) = map (fun x => f (g x) (h x)) l.
Proof.
  induction l as [|x l IH]; simpl; [reflexivity | now rewrite IH].
Qed.

Lemma select_map {X A} (p : X -> bool) (g : X -> A) (l : list X) :
  select (map p l) (map g l) = map g (filter p l).
Proof.
  induction l as [|x l IH]; simpl; [reflexivity|].
  destruct (p x); simpl; now rewrite IH.
Qed.

Lemma sum_map_nonneg {X} (g : X -> Z) (l : list X) :
  (forall x, In x l -> (0 <= g x)%Z) -> (0 <= sum (map g l))%Z.
Proof.
  induction l as [|x l IH]; simpl; intros H; [lia|].
  assert (0 <= g x)%Z by (apply H; now left).
  assert (0 <= sum (map g l))%Z by (apply IH; intros; apply H; now right).
  lia.
Qed.

Lemma sum_map_In_le {X} (g : X -> Z) (l : list X) (x : X) :
  (forall y, In y l -> (0 <= g y)%Z) -> In x l -> (g x <= sum (map g l))%Z.
Proof.
  induction l as [|y l IH]; simpl; intros H Hin; [contradiction|].
  assert (0 <= g y)%Z by (apply H; now left).
  assert (0 <= sum (map g l))%Z
    by (apply sum_map_nonneg; intros; apply H; now right).
  destruct Hin as [->|Hin]; [lia|].
  assert (g x <= sum (map g l))%Z by (apply IH; auto).
  lia.
Qed.

(** A sum of zeros. *)
Lemma fsum_zero {X} (g : X -> float) (l : list X) :
  (forall x, In x l -> g x = Fin 0) -> fsum (map g l) = Fin 0.
Proof.
  induction l as [|x l IH]; intros H; [reflexivity|].
  change (add (g x) (fsum (map g l)) = Fin 0).
  rewrite (H x) by now left.
  rewrite IH by (intros; apply H; now right).
  unfold add, lift2, Fin. f_equal. lra.
Qed.

End Arrays.

(** ** The estimators, row by row *)

Section RowWise.

Import Py Np Divergence_Compact default_divergence.

Lemma gtr0mask_rows (c : t) :
  logical_and (gt0 (nn_A c)) (gt0 (nn_B c))
  = map Spec.observed_in_both (table c).
Proof.
  unfold logical_and, gt0, nn_A, nn_B. rewrite !map_map.
  apply (zipWith_map andb).
Qed.

(** The Naive estimator is the sum of section 4.5 over the rows observed
    in both experiments. *)
Lemma Naive_rows (c : t) (measure : string) :
  Naive c measure = Spec.Naive_spec c measure.
Proof.
  unfold Naive, Spec.Naive_spec, Spec.divergence.
  rewrite gtr0mask_rows.
  unfold nn_A, nn_B, ff. rewrite !select_map.
  unfold dot, vmul, vadd, vdiv, vlog, vdiv_s, smul_v, of_ints.
  repeat (rewrite ?map_map, ?zipWith_map).
  reflexivity.
Qed.

(** The Dirichlet estimator sums over all rows, with [sum(ff)] in the
    normalizers. *)
Lemma Dirichlet_rows_sum (c : t) (a b : float) (measure : string) :
  Dirichlet c a b measure
  = Spec.divergence measure "Dirichlet"
      (map (fun r => (freq r,
                      Spec.adjusted (cnt_A r) a (N_A c) (Np.sum (ff c)),
                      Spec.adjusted (cnt_B r) b (N_B c) (Np.sum (ff c))))
           (table c)).
Proof.
  unfold Dirichlet, Spec.divergence, Spec.adjusted.
  generalize (Np.sum (ff c)); intros S.
  unfold nn_A, nn_B, ff.
  unfold dot, vmul, vadd, vdiv, vlog, vdiv_s, vadd_s, smul_v, of_ints.
  repeat (rewrite ?map_map, ?zipWith_map).
  reflexivity.
Qed.

(** It is the sum of section 4.6 once [sum(ff)] is the a priori number
    of categories. *)
Lemma Dirichlet_rows (c : t) (a b : float) (measure : string) :
  Np.sum (ff c) = K c ->
  Dirichlet c a b measure = Spec.Dirichlet_spec c a b measure.
Proof.
  intros HK. rewrite Dirichlet_rows_sum, HK. reflexivity.
Qed.

End RowWise.

(** ** Floats *)

Section Floats.

Import Np.

Lemma div_Fin (x y : R) : y <> 0 -> div (Fin x) (Fin y) = Fin (x / y).
Proof.
  intros Hy. unfold div, Fin. destruct (Req_dec_T y 0); [contradiction | reflexivity].
Qed.

Lemma div_by_zero (x : R) : div (Fin x) (Fin 0) = None.
Proof.
  unfold div, Fin. destruct (Req_dec_T 0 0); [reflexivity | now exfalso].
Qed.

Lemma log_Fin (x : R) : 0 < x -> log (Fin x) = Fin (ln x).
Proof.
  intros Hx. unfold log, Fin. destruct (Rlt_dec 0 x); [reflexivity | contradiction].
Qed.

Lemma sqrt_Fin (x : R) : 0 <= x -> sqrt (Fin x) = Fin (R_sqrt.sqrt x).
Proof.
  intros Hx. unfold sqrt, Fin. destruct (Rle_dec 0 x); [reflexivity | contradiction].
Qed.

Lemma add_Fin (x y : R) : add (Fin x) (Fin y) = Fin (x + y).
Proof. reflexivity. Qed.

Lemma mul_Fin (x y : R) : mul (Fin x) (Fin y) = Fin (x * y).
Proof. reflexivity. Qed.

Lemma add_comm (x y : float) : add x y = add y x.
Proof.
  destruct x as [x|], y as [y|]; simpl; try reflexivity.
  f_equal. apply Rplus_comm.
Qed.

Lemma mul_one (x : float) : mul (Fin 1) x = x.
Proof.
  destruct x as [x|]; simpl; [|reflexivity]. f_equal. apply Rmult_1_l.
Qed.

(** Multiplying by [1/l] is dividing by [l]. *)
Lemma mul_inv_div (l : R) (x : float) :
  l <> 0 -> mul (Fin (1 / l)) x = div x (Fin l).
Proof.
  intros Hl. destruct x as [x|]; [|reflexivity].
  unfold mul, lift2, div, Fin.
  destruct (Req_dec_T l 0); [contradiction|]. f_equal. now field.
Qed.

Lemma ln_2_pos : 0 < ln 2.
Proof. pose proof ln_lt_2. lra. Qed.

Lemma ln_10_pos : 0 < ln 10.
Proof. rewrite <- ln_1. apply ln_increasing; lra. Qed.

(** The summands vanish on equal, nonzero frequencies. *)
Lemma KL_term_diag (h : R) : h <> 0 -> Spec.KL_term (Fin h) (Fin h) = Fin 0.
Proof.
  intros Hh. unfold Spec.KL_term.
  rewrite (div_Fin h h Hh).
  replace (h / h) with 1 by now field.
  rewrite log_Fin by lra. rewrite ln_1, mul_Fin. f_equal. lra.
Qed.

Lemma JS_term_diag (h : R) : h <> 0 -> Spec.JS_term (Fin h) (Fin h) = Fin 0.
Proof.
  intros Hh. unfold Spec.JS_term.
  rewrite add_Fin, mul_Fin.
  replace (0.5 * (h + h)) with h by lra.
  rewrite (div_Fin h h Hh).
  replace (h / h) with 1 by now field.
  rewrite log_Fin by lra. rewrite ln_1, mul_Fin, add_Fin. f_equal. lra.
Qed.

Lemma JS_term_comm (hA hB : float) : Spec.JS_term hA hB = Spec.JS_term hB hA.
Proof.
  unfold Spec.JS_term. rewrite (add_comm hB hA). apply add_comm.
Qed.

End Floats.

(** Evaluation of the estimators on an explicit table: the integer
    arithmetic is computed, the real arithmetic is left to [lra]. *)
Ltac eval_table :=
  cbn [Divergence_Compact.table Divergence_Compact.N_A Divergence_Compact.N_B
       Divergence_Compact.K Divergence_Compact.compact_A
       Divergence_Compact.compact_B Divergence_Compact.cnt_A
       Divergence_Compact.cnt_B Divergence_Compact.freq
       Divergence_Compact.ff Divergence_Compact.swap
       Divergence_Compact.swap_row Experiment_Compact.Kobs
       Spec.observed_in_both map filter fold_right Np.sum Np.fsum andb
       Z.ltb Z.compare Pos.compare Pos.compare_cont
       Z.add Z.mul Pos.add Pos.mul Pos.succ Pos.add_carry];
  unfold Np.of_int; rewrite ?mul_Fin, ?add_Fin.

(** ** The data-model invariant *)

Section Invariant.

Import Np Divergence_Compact.

Lemma invariant_inv (c : t) :
  invariant c = true ->
  (forall r, In r (table c) ->
             (0 <= cnt_A r)%Z /\ (0 <= cnt_B r)%Z /\ (1 <= freq r)%Z)
  /\ Np.sum (ff c) = K c
  /\ Np.sum (map (fun r => freq r * cnt_A r)%Z (table c)) = N_A c
  /\ Np.sum (map (fun r => freq r * cnt_B r)%Z (table c)) = N_B c.
Proof.
  unfold invariant. rewrite !andb_true_iff, forallb_forall, !Z.eqb_eq.
  intros [[[Hrows HK] HA] HB]. repeat split; auto;
    apply Hrows in H; unfold row_ok in H;
    rewrite !andb_true_iff, !Z.leb_le in H; lia.
Qed.

(** A category seen in the first experiment makes its total positive. *)
Lemma N_A_pos (c : t) (r : row) :
  invariant c = true -> In r (table c) -> (0 < cnt_A r)%Z -> (0 < N_A c)%Z.
Proof.
  intros Hinv Hin Hpos.
  destruct (invariant_inv c Hinv) as (Hrows & _ & HA & _).
  rewrite <- HA.
  assert (freq r * cnt_A r <= sum (map (fun r => freq r * cnt_A r) (table c)))%Z.
  { apply (sum_map_In_le (fun r => freq r * cnt_A r)%Z); [|assumption].
    intros y Hy. apply Hrows in Hy. nia. }
  apply Hrows in Hin. nia.
Qed.

Lemma N_nonneg (c : t) :
  invariant c = true -> (0 <= N_A c)%Z /\ (0 <= N_B c)%Z.
Proof.
  intros Hinv.
  destruct (invariant_inv c Hinv) as (Hrows & _ & HA & HB).
  rewrite <- HA, <- HB.
  split; apply sum_map_nonneg; intros y Hy; apply Hrows in Hy; nia.
Qed.

(** A table with a row has at least one category. *)
Lemma sum_ff_pos (c : t) (r : row) :
  invariant c = true -> In r (table c) -> (0 < Np.sum (ff c))%Z.
Proof.
  intros Hinv Hin.
  destruct (invariant_inv c Hinv) as (Hrows & _).
  assert (freq r <= sum (ff c))%Z.
  { apply (sum_map_In_le freq); [|assumption].
    intros y Hy. apply Hrows in Hy. lia. }
  apply Hrows in Hin. lia.
Qed.

(** Adjusted frequencies are finite and positive for a positive
    pseudocount. *)
Lemma adjusted_pos (c : t) (r : row) (a : R) (n N : Z) :
  invariant c = true -> In r (table c) ->
  (0 <= n)%Z -> (0 <= N)%Z -> 0 < a ->
  exists h, 0 < h
    /\ Spec.adjusted n (Fin a) N (Np.sum (ff c))
       = Fin h
    /\ h = (IZR n + a) / (IZR N + a * IZR (Np.sum (ff c))).
Proof.
  intros Hinv Hin Hn HN Ha.
  pose proof (sum_ff_pos c r Hinv Hin) as HS.
  apply IZR_le in Hn, HN. apply IZR_lt in HS.
  assert (0 < a * IZR (sum (ff c))) by (apply Rmult_lt_0_compat; lra).
  eexists. split; [|split; [|reflexivity]].
  - apply Rdiv_lt_0_compat; lra.
  - unfold Spec.adjusted, of_int. rewrite mul_Fin, !add_Fin.
    apply div_Fin. lra.
Qed.

End Invariant.

(** ** Section 4.6: the Dirichlet estimator keeps every category *)

Section DirichletEstimator.

Import Py Np Divergence_Compact default_divergence.
Local Open Scope string_scope.

Lemma valid_measure_cases (measure : string) :
  Spec.valid_measure measure = true ->
  measure = "Kullback-Leibler" \/ measure = "Jensen-Shannon".
Proof.
  unfold Spec.valid_measure, str_in. simpl.
  rewrite !orb_true_iff, !String.eqb_eq. intuition discriminate.
Qed.

(** C3. On a summary with [sum(ff) == K] and pseudocounts [a, b >= 0], the
    Dirichlet estimator is the divergence formula of section 4.5 summed
    over every row of the table, none left out, at the adjusted
    frequencies [(nn_A + a) / (N_A + a K)] and [(nn_B + b) / (N_B + b K)],
    [K] being the a priori number of categories. *)
Theorem Dirichlet_all_categories (c : t) (a b : R) (measure : string) :
  Np.sum (ff c) = K c -> 0 <= a -> 0 <= b ->
  Dirichlet c (Fin a) (Fin b) measure
  = Spec.Dirichlet_spec c (Fin a) (Fin b) measure
  /\ Spec.Dirichlet_spec c (Fin a) (Fin b) measure
     = Spec.divergence measure "Dirichlet"
         (map (fun r =>
                 (freq r,
                  div (Fin (IZR (cnt_A r) + a))
                      (Fin (IZR (N_A c) + a * IZR (K c))),
                  div (Fin (IZR (cnt_B r) + b))
                      (Fin (IZR (N_B c) + b * IZR (K c)))))
              (table c)).
Proof.
  intros HK _ _. split.
  - now apply Dirichlet_rows.
  - reflexivity.
Qed.

End DirichletEstimator.

(** ** Zero self-divergence *)

Section SelfDivergence.

Import Py Np Divergence_Compact default_divergence.
Local Open Scope string_scope.

(** Both measures vanish on a table whose two frequency columns are
    equal, finite and nonzero. *)
Lemma divergence_diag (measure frame : string) (rows : list (Z * float * float)) :
  Spec.valid_measure measure = true ->
  (forall f hA hB, In (f, hA, hB) rows ->
                   exists h, h <> 0 /\ hA = Fin h /\ hB = Fin h) ->
  Spec.divergence measure frame rows = Return (Fin 0).
Proof.
  intros Hm Hrows.
  assert (HKL : fsum (map (fun '(f, hA, hB) =>
                             mul (of_int f) (Spec.KL_term hA hB)) rows) = Fin 0).
  { apply fsum_zero. intros [[f hA] hB] Hin.
    destruct (Hrows f hA hB Hin) as (h & Hh & -> & ->).
    rewrite KL_term_diag by assumption.
    unfold of_int. rewrite mul_Fin. f_equal. lra. }
  assert (HJS : fsum (map (fun '(f, hA, hB) =>
                             mul (of_int f) (Spec.JS_term hA hB)) rows) = Fin 0).
  { apply fsum_zero. intros [[f hA] hB] Hin.
    destruct (Hrows f hA hB Hin) as (h & Hh & -> & ->).
    rewrite JS_term_diag by assumption.
    unfold of_int. rewrite mul_Fin. f_equal. lra. }
  unfold Spec.divergence.
  destruct (valid_measure_cases measure Hm) as [-> | ->].
  - rewrite String.eqb_refl. now rewrite HKL.
  - change ("Jensen-Shannon" =? "Kullback-Leibler") with false.
    rewrite String.eqb_refl, HJS, mul_Fin. do 2 f_equal. lra.
Qed.

(** C8, as amended. When the two experiments of a summary are identical,
    the Naive estimator returns zero for both measures, and so does the
    Dirichlet estimator for every pseudocount pair [a = b > 0]. *)
Theorem zero_self_divergence (c : t) (a : R) (measure : string) :
  invariant c = true ->
  nn_A c = nn_B c -> N_A c = N_B c ->
  Spec.valid_measure measure = true ->
  0 < a ->
  Naive c measure = Return (Fin 0)
  /\ Dirichlet c (Fin a) (Fin a) measure = Return (Fin 0).
Proof.
  intros Hinv Hnn HN Hm Ha.
  assert (Hrow : forall r, In r (table c) -> cnt_A r = cnt_B r)
    by (apply map_ext_in_iff; exact Hnn).
  split.
  - rewrite Naive_rows. unfold Spec.Naive_spec.
    apply divergence_diag; [assumption|].
    intros f hA hB Hin. apply in_map_iff in Hin.
    destruct Hin as (r & Heq & Hin). apply filter_In in Hin.
    destruct Hin as [Hin Hobs]. inversion Heq; subst f hA hB; clear Heq.
    unfold Spec.observed_in_both in Hobs.
    apply andb_true_iff in Hobs. destruct Hobs as [HposA _].
    apply Z.ltb_lt in HposA.
    pose proof (N_A_pos c r Hinv Hin HposA) as HNpos.
    rewrite <- (Hrow r Hin), <- HN.
    apply IZR_lt in HposA, HNpos.
    exists (IZR (cnt_A r) / IZR (N_A c)).
    assert (IZR (N_A c) <> 0) by lra.
    repeat split; try (unfold of_int; now apply div_Fin).
    apply Rgt_not_eq. apply Rdiv_lt_0_compat; lra.
  - rewrite Dirichlet_rows_sum.
    apply divergence_diag; [assumption|].
    intros f hA hB Hin. apply in_map_iff in Hin.
    destruct Hin as (r & Heq & Hin). inversion Heq; subst f hA hB; clear Heq.
    destruct (invariant_inv c Hinv) as (Hrows & _).
    destruct (Hrows r Hin) as (HcA & HcB & _).
    destruct (N_nonneg c Hinv) as [HNA HNB].
    destruct (adjusted_pos c r a (cnt_A r) (N_A c) Hinv Hin HcA HNA Ha)
      as (h & Hh & Heq & _).
    exists h. rewrite <- (Hrow r Hin), <- HN.
    repeat split; try assumption. lra.
Qed.

(** The instance at the summary [twin] with [a = b = 1/2]. *)
Lemma zero_self_divergence_witness :
  Naive Examples.twin "Jensen-Shannon" = Return (Fin 0)
  /\ Dirichlet Examples.twin (Fin 0.5) (Fin 0.5) "Jensen-Shannon"
     = Return (Fin 0).
Proof.
  apply (zero_self_divergence Examples.twin 0.5 "Jensen-Shannon");
    [reflexivity | reflexivity | reflexivity | reflexivity | lra].
Defined.

(** Without pseudocounts the category that was never observed gives
    [0 * log(0/0)], which is [nan]: the Dirichlet estimator with
    [a = b = 0] does not return zero on [twin]. *)
Lemma Dirichlet_zero_pseudocount_nan :
  invariant Examples.twin = true
  /\ nn_A Examples.twin = nn_B Examples.twin
  /\ N_A Examples.twin = N_B Examples.twin
  /\ Dirichlet Examples.twin (Fin 0) (Fin 0) "Kullback-Leibler" = Return None
  /\ Dirichlet Examples.twin (Fin 0) (Fin 0) "Kullback-Leibler"
     <> Return (Fin 0).
Proof.
  assert (H : Dirichlet Examples.twin (Fin 0) (Fin 0) "Kullback-Leibler"
              = Return None).
  { rewrite Dirichlet_rows_sum. unfold Spec.divergence, Spec.adjusted.
    rewrite String.eqb_refl. unfold Examples.twin, Examples.R3. eval_table.
    rewrite !div_Fin by lra.
    replace ((0 + 0) / (1 + 0 * 2)) with 0 by lra.
    unfold Spec.KL_term at 1. rewrite div_by_zero. reflexivity. }
  repeat split; try reflexivity; [exact H|].
  rewrite H. discriminate.
Qed.

End SelfDivergence.

(** ** Logarithms of small rationals *)

Section Logarithms.

Lemma ln_quot (x y : R) : 0 < x -> 0 < y -> ln (x / y) = ln x - ln y.
Proof.
  intros Hx Hy. unfold Rdiv.
  rewrite ln_mult by (try assumption; now apply Rinv_0_lt_compat).
  rewrite ln_Rinv by assumption. lra.
Qed.

Lemma ln_4 : ln 4 = 2 * ln 2.
Proof.
  replace 4 with (2 * 2) by lra. rewrite ln_mult by lra. lra.
Qed.

Lemma ln_2_lt_ln_3 : ln 2 < ln 3.
Proof. apply ln_increasing; lra. Qed.

(** [2^19 < 3^12], so [19 ln 2 < 12 ln 3]. *)
Lemma ln_comma : 19 * ln 2 < 12 * ln 3.
Proof.
  assert (H2 : ln (2 ^ 19) = 19 * ln 2).
  { rewrite ln_pow by lra. replace (INR 19) with 19 by (simpl; lra). reflexivity. }
  assert (H3 : ln (3 ^ 12) = 12 * ln 3).
  { rewrite ln_pow by lra. replace (INR 12) with 12 by (simpl; lra). reflexivity. }
  rewrite <- H2, <- H3. apply ln_increasing; simpl; lra.
Qed.

End Logarithms.

(** ** Exchanging the two experiments *)

Section Swap.

Import Py Np Divergence_Compact default_divergence.
Local Open Scope string_scope.

Lemma divergence_JS_flip (frame : string) (rows : list (Z * float * float)) :
  Spec.divergence "Jensen-Shannon" frame (map Spec.flip rows)
  = Spec.divergence "Jensen-Shannon" frame rows.
Proof.
  unfold Spec.divergence.
  change ("Jensen-Shannon" =? "Kullback-Leibler") with false.
  rewrite String.eqb_refl, map_map. do 3 f_equal.
  apply map_ext. intros [[f hA] hB]. simpl. now rewrite JS_term_comm.
Qed.

Lemma filter_swap (l : list row) :
  filter Spec.observed_in_both (map swap_row l)
  = map swap_row (filter Spec.observed_in_both l).
Proof.
  rewrite filter_map_swap. f_equal. apply filter_ext.
  intros r. unfold Spec.observed_in_both, swap_row. simpl. apply andb_comm.
Qed.

Lemma sum_ff_swap (c : t) : Np.sum (ff (swap c)) = Np.sum (ff c).
Proof.
  unfold ff, swap. simpl. now rewrite map_map.
Qed.

Lemma Naive_swap_JS (c : t) :
  Naive (swap c) "Jensen-Shannon" = Naive c "Jensen-Shannon".
Proof.
  rewrite !Naive_rows. unfold Spec.Naive_spec.
  rewrite <- divergence_JS_flip.
  change (table (swap c)) with (map swap_row (table c)).
  rewrite filter_swap, !map_map. reflexivity.
Qed.

(** The pseudocounts go with their experiments. *)
Lemma Dirichlet_swap_JS (c : t) (a b : float) :
  Dirichlet (swap c) b a "Jensen-Shannon" = Dirichlet c a b "Jensen-Shannon".
Proof.
  rewrite !Dirichlet_rows_sum, sum_ff_swap.
  rewrite <- divergence_JS_flip.
  change (table (swap c)) with (map swap_row (table c)).
  rewrite !map_map. reflexivity.
Qed.

Lemma switchboard_swap_JS CMW (c : t) (method : string) (unit : option string)
      (kwargs : list string) :
  switchboard CMW (swap c) method unit "Jensen-Shannon" kwargs
  = switchboard CMW c method unit "Jensen-Shannon" kwargs.
Proof.
  unfold switchboard.
  destruct (unit_lookup unit) as [unit_conv|]; [|reflexivity].
  change (negb (str_in "Jensen-Shannon" ["Kullback-Leibler"; "Jensen-Shannon"]))
    with false.
  change (negb ("Jensen-Shannon" =? "Kullback-Leibler")) with true.
  cbv iota.
  destruct (method =? "naive"); [now rewrite Naive_swap_JS|].
  destruct (method =? "CMW"); [reflexivity|].
  destruct (method =? "Jeffreys"); [now rewrite Dirichlet_swap_JS|].
  destruct (method =? "Laplace"); [now rewrite Dirichlet_swap_JS|].
  destruct (method =? "SG").
  { cbv zeta. cbn [swap compact_A compact_B N_A N_B].
    now rewrite Dirichlet_swap_JS. }
  destruct (method =? "minimax").
  { cbv zeta. cbn [swap compact_A compact_B N_A N_B].
    now rewrite Dirichlet_swap_JS. }
  reflexivity.
Qed.

End Swap.

Ltac eval_floats :=
  rewrite ?div_Fin by lra;
  unfold Spec.KL_term, Spec.JS_term;
  rewrite ?mul_Fin, ?add_Fin;
  rewrite ?div_Fin by lra;
  rewrite ?log_Fin by lra;
  rewrite ?mul_Fin, ?add_Fin.

(** ** Kullback-Leibler on the examples *)

Section KullbackLeiblerExamples.

Import Py Np Divergence_Compact default_divergence.
Local Open Scope string_scope.

Lemma Naive_KL_lopsided :
  Naive Examples.lopsided "Kullback-Leibler" = Return (Fin (- ln 2 / 2)).
Proof.
  rewrite Naive_rows. unfold Spec.Naive_spec, Spec.divergence.
  rewrite String.eqb_refl. unfold Examples.lopsided, Examples.R3.
  eval_table. eval_floats. do 2 f_equal.
  rewrite !ln_quot by lra. rewrite ln_1. lra.
Qed.

Lemma Naive_KL_lopsided_swap :
  Naive (swap Examples.lopsided) "Kullback-Leibler" = Return (Fin (ln 2)).
Proof.
  rewrite Naive_rows. unfold Spec.Naive_spec, Spec.divergence.
  rewrite String.eqb_refl. unfold Examples.lopsided, Examples.R3.
  eval_table. eval_floats. do 2 f_equal.
  rewrite !ln_quot by lra. rewrite ln_1. lra.
Qed.

Lemma Dirichlet_KL_lopsided :
  Dirichlet Examples.lopsided (Fin 1) (Fin 1) "Kullback-Leibler"
  = Return (Fin (ln 3 - 3 / 2 * ln 2)).
Proof.
  rewrite Dirichlet_rows_sum. unfold Spec.divergence, Spec.adjusted.
  rewrite String.eqb_refl. unfold Examples.lopsided, Examples.R3.
  eval_table. eval_floats. do 2 f_equal.
  rewrite !ln_quot by lra.
  replace (1 + 1) with 2 by lra. replace (2 + 1 * 2) with 4 by lra.
  replace (1 + 1 * 2) with 3 by lra. replace (0 + 1) with 1 by lra.
  rewrite ln_4, ln_1. lra.
Qed.

Lemma Dirichlet_KL_lopsided_swap :
  Dirichlet (swap Examples.lopsided) (Fin 1) (Fin 1) "Kullback-Leibler"
  = Return (Fin (5 / 3 * ln 2 - ln 3)).
Proof.
  rewrite Dirichlet_rows_sum. unfold Spec.divergence, Spec.adjusted.
  rewrite String.eqb_refl. unfold Examples.lopsided, Examples.R3.
  eval_table. eval_floats. do 2 f_equal.
  rewrite !ln_quot by lra.
  replace (1 + 1) with 2 by lra. replace (2 + 1 * 2) with 4 by lra.
  replace (1 + 1 * 2) with 3 by lra. replace (0 + 1) with 1 by lra.
  rewrite ln_4, ln_1. lra.
Qed.

(** On [mirror] the swap only reorders the two summands. *)
Lemma Naive_KL_mirror_swap :
  Naive (swap Examples.mirror) "Kullback-Leibler"
  = Naive Examples.mirror "Kullback-Leibler".
Proof.
  rewrite !Naive_rows. unfold Spec.Naive_spec, Spec.divergence.
  rewrite String.eqb_refl. unfold Examples.mirror, Examples.R3.
  eval_table. eval_floats. do 2 f_equal. lra.
Qed.

Lemma Dirichlet_KL_mirror_swap :
  Dirichlet (swap Examples.mirror) (Fin 1) (Fin 1) "Kullback-Leibler"
  = Dirichlet Examples.mirror (Fin 1) (Fin 1) "Kullback-Leibler".
Proof.
  rewrite !Dirichlet_rows_sum. unfold Spec.divergence, Spec.adjusted.
  rewrite String.eqb_refl. unfold Examples.mirror, Examples.R3.
  eval_table. eval_floats. do 2 f_equal. lra.
Qed.

Lemma Naive_KL_mirror :
  Naive Examples.mirror "Kullback-Leibler" = Return (Fin (ln 2 / 3)).
Proof.
  rewrite Naive_rows. unfold Spec.Naive_spec, Spec.divergence.
  rewrite String.eqb_refl. unfold Examples.mirror, Examples.R3.
  eval_table. eval_floats. do 2 f_equal.
  rewrite !ln_quot by lra. rewrite ln_1. lra.
Qed.

Lemma mirror_frequencies :
  vdiv_s (of_ints (nn_A Examples.mirror)) (of_int (N_A Examples.mirror))
  = [Fin (1 / 3); Fin (2 / 3)]
  /\ vdiv_s (of_ints (nn_B Examples.mirror)) (of_int (N_B Examples.mirror))
     = [Fin (2 / 3); Fin (1 / 3)].
Proof.
  unfold vdiv_s, of_ints, nn_A, nn_B, Examples.mirror, Examples.R3.
  eval_table. rewrite !div_Fin by lra. split; reflexivity.
Qed.

End KullbackLeiblerExamples.

(** ** Jensen-Shannon symmetry *)

Section Symmetry.

Import Py Np Divergence_Compact default_divergence.
Local Open Scope string_scope.

(** C7, as amended. Exchanging the two experiments leaves the
    Jensen-Shannon result unchanged: for the Naive estimator, for the
    Dirichlet estimator when the pseudocounts are exchanged with their
    experiments (so whenever [a = b]), and for every method of the
    switchboard. Kullback-Leibler is not symmetric in general: on
    [lopsided] the swap changes the result of both estimators. *)
Theorem JS_symmetric_KL_not_in_general :
  (forall c, Naive (swap c) "Jensen-Shannon" = Naive c "Jensen-Shannon")
  /\ (forall c a b,
        Dirichlet (swap c) b a "Jensen-Shannon"
        = Dirichlet c a b "Jensen-Shannon")
  /\ (forall CMW c method unit kwargs,
        switchboard CMW (swap c) method unit "Jensen-Shannon" kwargs
        = switchboard CMW c method unit "Jensen-Shannon" kwargs)
  /\ (exists c,
        invariant c = true
        /\ Naive (swap c) "Kullback-Leibler" <> Naive c "Kullback-Leibler"
        /\ Dirichlet (swap c) (Fin 1) (Fin 1) "Kullback-Leibler"
           <> Dirichlet c (Fin 1) (Fin 1) "Kullback-Leibler").
Proof.
  split; [exact Naive_swap_JS|].
  split; [exact Dirichlet_swap_JS|].
  split; [exact switchboard_swap_JS|].
  exists Examples.lopsided. split; [reflexivity|]. split.
  - rewrite Naive_KL_lopsided, Naive_KL_lopsided_swap.
    intros H. inversion H as [E]. pose proof ln_2_pos. lra.
  - rewrite Dirichlet_KL_lopsided, Dirichlet_KL_lopsided_swap.
    intros H. inversion H as [E]. pose proof ln_comma. lra.
Qed.

(** The two experiments of [mirror] have different empirical
    distributions, (1/3, 2/3) and (2/3, 1/3), and yet the swap leaves the
    Kullback-Leibler result of both estimators unchanged. *)
Lemma KL_swap_unchanged_on_mirror :
  invariant Examples.mirror = true
  /\ vdiv_s (of_ints (nn_A Examples.mirror)) (of_int (N_A Examples.mirror))
     <> vdiv_s (of_ints (nn_B Examples.mirror)) (of_int (N_B Examples.mirror))
  /\ Naive (swap Examples.mirror) "Kullback-Leibler"
     = Naive Examples.mirror "Kullback-Leibler"
  /\ Dirichlet (swap Examples.mirror) (Fin 1) (Fin 1) "Kullback-Leibler"
     = Dirichlet Examples.mirror (Fin 1) (Fin 1) "Kullback-Leibler".
Proof.
  split; [reflexivity|]. split.
  - destruct mirror_frequencies as [-> ->].
    intros H. inversion H as [[E1 E2]]. lra.
  - split; [exact Naive_KL_mirror_swap | exact Dirichlet_KL_mirror_swap].
Qed.

End Symmetry.

(** ** The Naive exclusion policy *)

Section Exclusion.

Import Py Np Divergence_Compact default_divergence.
Local Open Scope string_scope.

Lemma not_observed_in_both (r : row) :
  cnt_B r = 0%Z -> Spec.observed_in_both r = false.
Proof.
  intros H. unfold Spec.observed_in_both. rewrite H. apply andb_false_r.
Qed.

(** With the totals held fixed, the count in A of a category never seen
    in B does not reach the Naive estimate. *)
Lemma Naive_excluded_row (c : t) (pre post : list row) (r : row) (x : Z)
      (measure : string) :
  table c = (pre ++ r :: post)%list -> cnt_B r = 0%Z ->
  Naive (with_table c (pre ++ recount_A x r :: post)%list) measure
  = Naive c measure.
Proof.
  intros Htab HB. rewrite !Naive_rows. unfold Spec.Naive_spec.
  cbn [with_table table N_A N_B]. rewrite Htab, !filter_app.
  cbn [filter].
  rewrite (not_observed_in_both r HB).
  rewrite (not_observed_in_both (recount_A x r)) by exact HB.
  reflexivity.
Qed.

Lemma Naive_KL_excl_1 :
  Naive (Examples.excl 1) "Kullback-Leibler" = Return (Fin 0).
Proof.
  rewrite Naive_rows. unfold Spec.Naive_spec, Spec.divergence.
  rewrite String.eqb_refl. unfold Examples.excl, Examples.R3.
  eval_table. eval_floats. do 2 f_equal.
  replace (1 / 2 / (1 / 2)) with 1 by lra. rewrite ln_1. lra.
Qed.

Lemma Naive_KL_excl_2 :
  Naive (Examples.excl 2) "Kullback-Leibler"
  = Return (Fin ((ln 2 - ln 3) / 3)).
Proof.
  rewrite Naive_rows. unfold Spec.Naive_spec, Spec.divergence.
  rewrite String.eqb_refl. unfold Examples.excl, Examples.R3.
  eval_table. eval_floats. do 2 f_equal.
  rewrite !ln_quot by lra. rewrite ln_1. lra.
Qed.

Lemma Dirichlet_KL_excl_1 :
  Dirichlet (Examples.excl 1) (Fin 1) (Fin 1) "Kullback-Leibler"
  = Return (Fin (ln 2 / 5)).
Proof.
  rewrite Dirichlet_rows_sum. unfold Spec.divergence, Spec.adjusted.
  rewrite String.eqb_refl. unfold Examples.excl, Examples.R3.
  eval_table. eval_floats. do 2 f_equal.
  rewrite !ln_quot by lra.
  replace (1 + 1) with 2 by lra. replace (0 + 1) with 1 by lra.
  rewrite ln_1. lra.
Qed.

Lemma Dirichlet_KL_excl_1_recount :
  Dirichlet (with_table (Examples.excl 1)
               ([Examples.R3 1 1 1]
                  ++ recount_A 3 (Examples.R3 1 0 1) :: [Examples.R3 0 1 1])%list)
            (Fin 1) (Fin 1) "Kullback-Leibler"
  = Return (Fin (7 / 5 * ln 2)).
Proof.
  rewrite Dirichlet_rows_sum. unfold Spec.divergence, Spec.adjusted.
  rewrite String.eqb_refl.
  unfold Examples.excl, Examples.R3, with_table, recount_A.
  cbn [app]. eval_table. eval_floats. do 2 f_equal.
  rewrite !ln_quot by lra.
  replace (1 + 1) with 2 by lra. replace (0 + 1) with 1 by lra.
  replace (3 + 1) with 4 by lra.
  rewrite ln_1, ln_4. lra.
Qed.

(** C1, as amended. A category with a nonzero count in A and none in B
    is left out of the Naive sum: with the totals [N_A], [N_B] held fixed,
    the Naive result (either measure) is the same whatever count the
    category has in A. The Dirichlet estimator reads that count: on
    [excl 1], raising it from 1 to 3 changes the Dirichlet result. *)
Theorem Naive_exclusion_policy :
  (forall c pre r post x measure,
      table c = (pre ++ r :: post)%list -> cnt_B r = 0%Z ->
      Naive (with_table c (pre ++ recount_A x r :: post)%list) measure
      = Naive c measure)
  /\ (exists c pre r post x,
        table c = (pre ++ r :: post)%list
        /\ invariant c = true
        /\ cnt_B r = 0%Z /\ (0 < cnt_A r)%Z /\ (0 < x)%Z
        /\ Dirichlet (with_table c (pre ++ recount_A x r :: post)%list)
                     (Fin 1) (Fin 1) "Kullback-Leibler"
           <> Dirichlet c (Fin 1) (Fin 1) "Kullback-Leibler").
Proof.
  split; [intros c pre r post x measure; apply Naive_excluded_row|].
  exists (Examples.excl 1), [Examples.R3 1 1 1], (Examples.R3 1 0 1),
    [Examples.R3 0 1 1], 3%Z.
  repeat split; try reflexivity.
  rewrite Dirichlet_KL_excl_1_recount, Dirichlet_KL_excl_1.
  intros H. inversion H as [E]. pose proof ln_2_pos. lra.
Qed.

(** The instance at [excl 1], the count of the second category raised
    from 1 to 3. *)
Lemma Naive_exclusion_policy_witness :
  Naive (with_table (Examples.excl 1)
           ([Examples.R3 1 1 1]
              ++ recount_A 3 (Examples.R3 1 0 1) :: [Examples.R3 0 1 1])%list)
        "Jensen-Shannon"
  = Naive (Examples.excl 1) "Jensen-Shannon".
Proof.
  apply (proj1 Naive_exclusion_policy (Examples.excl 1)
           [Examples.R3 1 1 1] (Examples.R3 1 0 1) [Examples.R3 0 1 1]
           3%Z "Jensen-Shannon");
    reflexivity.
Defined.

(** The summaries [excl 1] and [excl 2] satisfy the invariant and differ
    only in the count in A of the category never seen in B (1 against 2,
    hence [N_A] 2 against 3); the Naive Kullback-Leibler results differ:
    the frequencies of the category that is kept are [1/N_A]. *)
Lemma Naive_changes_with_adjusted_total :
  invariant (Examples.excl 1) = true
  /\ invariant (Examples.excl 2) = true
  /\ table (Examples.excl 2)
     = ([Examples.R3 1 1 1]
          ++ recount_A 2 (Examples.R3 1 0 1) :: [Examples.R3 0 1 1])%list
  /\ table (Examples.excl 1)
     = ([Examples.R3 1 1 1] ++ Examples.R3 1 0 1 :: [Examples.R3 0 1 1])%list
  /\ Naive (Examples.excl 1) "Kullback-Leibler"
     <> Naive (Examples.excl 2) "Kullback-Leibler".
Proof.
  repeat split; try reflexivity.
  rewrite Naive_KL_excl_1, Naive_KL_excl_2.
  intros H. inversion H as [E]. pose proof ln_2_lt_ln_3. lra.
Qed.

End Exclusion.

(** ** The switchboard *)

Section SwitchboardProperties.

Import Py Np Divergence_Compact default_divergence.
Local Open Scope string_scope.

Variable CMW : t -> list string -> result float.

(** The units of [_unit_Dict_] are those of section 4.7, with finite
    factors. *)
Lemma unit_lookup_factor (u : string) :
  unit_lookup (Some u) = option_map Fin (Spec.unit_factor u).
Proof.
  unfold unit_lookup, _unit_Dict_, dict_get, Spec.unit_factor.
  destruct (u =? "ln"); [reflexivity|].
  destruct (u =? "log2").
  { rewrite log_Fin by lra. rewrite div_Fin by (pose proof ln_2_pos; lra).
    reflexivity. }
  destruct (u =? "log10"); [|reflexivity].
  rewrite log_Fin by lra. rewrite div_Fin by (pose proof ln_10_pos; lra).
  reflexivity.
Qed.

Lemma unit_lookup_valid (unit : option string) :
  Spec.valid_unit unit = false <-> unit_lookup unit = None.
Proof.
  destruct unit as [u|]; [|split; reflexivity].
  rewrite unit_lookup_factor.
  unfold Spec.valid_unit, str_in, existsb, Spec.unit_factor.
  destruct (u =? "ln"), (u =? "log2"), (u =? "log10"); simpl;
    split; intros H; try reflexivity; discriminate.
Qed.

(** Both estimators return on a validated measure. *)
Lemma Naive_returns (c : t) (measure : string) :
  Spec.valid_measure measure = true ->
  exists v, Naive c measure = Return v.
Proof.
  intros Hm. unfold Naive.
  destruct (valid_measure_cases measure Hm) as [-> | ->].
  - rewrite String.eqb_refl. eexists; reflexivity.
  - change ("Jensen-Shannon" =? "Kullback-Leibler") with false.
    rewrite String.eqb_refl. eexists; reflexivity.
Qed.

Lemma Dirichlet_returns (c : t) (a b : float) (measure : string) :
  Spec.valid_measure measure = true ->
  exists v, Dirichlet c a b measure = Return v.
Proof.
  intros Hm. unfold Dirichlet.
  destruct (valid_measure_cases measure Hm) as [-> | ->].
  - rewrite String.eqb_refl. eexists; reflexivity.
  - change ("Jensen-Shannon" =? "Kullback-Leibler") with false.
    rewrite String.eqb_refl. eexists; reflexivity.
Qed.

(** The result in any unit is the result in [ln] times the factor. *)
Lemma switchboard_unit (c : t) (method : string) (unit : option string)
      (conv : float) (measure : string) (kwargs : list string) :
  unit_lookup unit = Some conv ->
  switchboard CMW c method unit measure kwargs
  = fmap (mul conv) (switchboard CMW c method (Some "ln") measure kwargs).
Proof.
  intros Hu. unfold switchboard. rewrite Hu.
  change (unit_lookup (Some "ln")) with (Some (Fin 1)).
  destruct (negb (str_in measure ["Kullback-Leibler"; "Jensen-Shannon"]));
    [reflexivity|].
  match goal with |- bind ?r _ = _ => destruct r as [x|e] end;
    [|reflexivity].
  unfold fmap. cbn [bind]. now rewrite mul_one.
Qed.

End SwitchboardProperties.

(** ** Section 4.7: units, validation and dispatch *)

Section SwitchboardClaims.

Import Py Np Divergence_Compact default_divergence.
Local Open Scope string_scope.

(** C5. The switchboard raises a configuration error ([IOError], from
    its own body) and returns nothing whenever the unit is not one of
    [ln], [log2], [log10] (or is left out), or the measure is not one of
    the two recognized ones, or the method is not a recognized name, or
    the method is [CMW] with a measure other than Kullback-Leibler. *)
Theorem switchboard_rejects CMW (c : t) (method : string)
        (unit : option string) (measure : string) (kwargs : list string) :
  Spec.valid_unit unit = false
  \/ Spec.valid_measure measure = false
  \/ Spec.known_method method = false
  \/ (method = "CMW" /\ measure <> "Kullback-Leibler") ->
  (exists msg, switchboard CMW c method unit measure kwargs
               = Raise (IOError "switchboard" msg))
  /\ is_Return (switchboard CMW c method unit measure kwargs) = false.
Proof.
  intros H.
  assert (Hraise : exists msg, switchboard CMW c method unit measure kwargs
                               = Raise (IOError "switchboard" msg)).
  { unfold switchboard.
    destruct (unit_lookup unit) as [conv|] eqn:Hu; [|eexists; reflexivity].
    destruct H as [H|H];
      [apply unit_lookup_valid in H; congruence|].
    fold (Spec.valid_measure measure).
    destruct (Spec.valid_measure measure) eqn:Hm;
      [|eexists; reflexivity].
    cbn [negb].
    destruct H as [H|[H|[-> H]]]; [discriminate| |].
    - unfold Spec.known_method, str_in, existsb in H.
      repeat (apply orb_false_elim in H; destruct H as [-> H]).
      eexists; reflexivity.
    - change ("CMW" =? "naive") with false. rewrite String.eqb_refl.
      apply String.eqb_neq in H. rewrite H.
      eexists; reflexivity. }
  split; [exact Hraise|].
  destruct Hraise as [msg ->]. reflexivity.
Qed.

(** The instances of section 8: [unit="log3"], no unit,
    [measure="Hellinger"], [method="unknown"], and [CMW] with
    Jensen-Shannon. *)
Lemma switchboard_rejects_witness :
  is_Return (switchboard Examples.no_CMW Examples.mirror "naive"
               (Some "log3") "Kullback-Leibler" []) = false
  /\ is_Return (switchboard Examples.no_CMW Examples.mirror "naive"
                  None "Kullback-Leibler" []) = false
  /\ is_Return (switchboard Examples.no_CMW Examples.mirror "naive"
                  (Some "ln") "Hellinger" []) = false
  /\ is_Return (switchboard Examples.no_CMW Examples.mirror "unknown"
                  (Some "ln") "Kullback-Leibler" []) = false
  /\ is_Return (switchboard Examples.no_CMW Examples.mirror "CMW"
                  (Some "ln") "Jensen-Shannon" []) = false.
Proof.
  split; [|split; [|split; [|split]]]; apply switchboard_rejects.
  - left; reflexivity.
  - left; reflexivity.
  - right; left; reflexivity.
  - right; right; left; reflexivity.
  - right; right; right. split; [reflexivity | discriminate].
Defined.

Lemma bind_call_not_IOError (callee : string) (kwargs : list string)
      (r : result float) (k : float -> float) (frame msg : string) :
  (exists v, r = Return v) ->
  (x <- call_with callee kwargs r ;; Return (k x))
  <> Raise (IOError frame msg).
Proof.
  intros [v ->]. destruct kwargs; cbn; discriminate.
Qed.

Lemma switchboard_not_estimator_error CMW (c : t) (method : string)
      (unit : option string) (measure : string) (kwargs : list string)
      (frame msg : string) :
  method <> "CMW" -> frame <> "switchboard" ->
  switchboard CMW c method unit measure kwargs <> Raise (IOError frame msg).
Proof.
  intros HCMW Hframe. unfold switchboard.
  destruct (unit_lookup unit) as [conv|]; [|congruence].
  fold (Spec.valid_measure measure).
  destruct (Spec.valid_measure measure) eqn:Hm; cbn [negb]; [|congruence].
  destruct (method =? "naive");
    [apply bind_call_not_IOError, Naive_returns, Hm|].
  destruct (method =? "CMW") eqn:E;
    [apply String.eqb_eq in E; contradiction|].
  repeat match goal with
         | |- context [if ?m =? ?s then _ else _] =>
             destruct (m =? s);
             [apply bind_call_not_IOError, Dirichlet_returns, Hm|]
         end.
  cbn [bind]. congruence.
Qed.

(** C10. On every call of the switchboard that does not go to the CMW
    estimator, the error branch for an unrecognized measure inside
    [Naive] and inside [Dirichlet] does not fire: the switchboard never
    ends with the [IOError] of either estimator, because it dispatches
    only measures it has validated, on which both estimators return.
    (Called directly with any other measure, each estimator does raise
    it.) *)
Theorem estimator_measure_error_unreachable CMW (c : t) (method : string)
        (unit : option string) (measure : string) (kwargs : list string) :
  method <> "CMW" ->
  (forall msg, switchboard CMW c method unit measure kwargs
               <> Raise (IOError "Naive" msg))
  /\ (forall msg, switchboard CMW c method unit measure kwargs
                  <> Raise (IOError "Dirichlet" msg))
  /\ (Spec.valid_measure measure = true ->
      is_Return (Naive c measure) = true
      /\ forall a b, is_Return (Dirichlet c a b measure) = true)
  /\ (Spec.valid_measure measure = false ->
      Naive c measure = Raise (IOError "Naive" measure_msg)
      /\ forall a b, Dirichlet c a b measure
                     = Raise (IOError "Dirichlet" measure_msg)).
Proof.
  intros HCMW.
  split; [intros msg; apply switchboard_not_estimator_error;
          [assumption | discriminate]|].
  split; [intros msg; apply switchboard_not_estimator_error;
          [assumption | discriminate]|].
  split.
  - intros Hm. split.
    + destruct (Naive_returns c measure Hm) as [v ->]. reflexivity.
    + intros a b. destruct (Dirichlet_returns c a b measure Hm) as [v ->].
      reflexivity.
  - unfold Spec.valid_measure, str_in, existsb. intros Hm.
    apply orb_false_elim in Hm. destruct Hm as [HKL Hm].
    apply orb_false_elim in Hm. destruct Hm as [HJS _].
    unfold Naive, Dirichlet. rewrite HKL, HJS. split; reflexivity.
Qed.

(** The instance at [method="naive"] with Jensen-Shannon. *)
Lemma estimator_measure_error_unreachable_witness :
  switchboard Examples.no_CMW Examples.mirror "naive" (Some "ln")
              "Jensen-Shannon" []
  <> Raise (IOError "Naive" measure_msg).
Proof.
  apply (proj1 (estimator_measure_error_unreachable Examples.no_CMW
                  Examples.mirror "naive" (Some "ln") "Jensen-Shannon" []
                  ltac:(discriminate))).
Defined.

Lemma pseudocounts_real (c : t) (method : string) (a b : R) :
  (0 < Experiment_Compact.Kobs (compact_A c))%Z ->
  (0 < Experiment_Compact.Kobs (compact_B c))%Z ->
  (0 <= N_A c)%Z -> (0 <= N_B c)%Z ->
  Spec.real_pseudocounts method c = Some (a, b) ->
  Spec.pseudocounts method c = Some (Fin a, Fin b).
Proof.
  intros HKA HKB HNA HNB.
  apply IZR_lt in HKA, HKB. apply IZR_le in HNA, HNB.
  unfold Spec.real_pseudocounts, Spec.pseudocounts, of_int.
  destruct (method =? "Jeffreys"); [now intros [= <- <-]|].
  destruct (method =? "Laplace"); [now intros [= <- <-]|].
  destruct (method =? "SG").
  { intros [= <- <-]. rewrite !div_Fin by lra. reflexivity. }
  destruct (method =? "minimax"); [|discriminate].
  intros [= <- <-]. rewrite !sqrt_Fin by lra. rewrite !div_Fin by lra.
  reflexivity.
Qed.

Lemma switchboard_Dirichlet CMW (c : t) (method : string)
      (unit : option string) (conv : float) (measure : string)
      (kwargs : list string) (a b : float) :
  unit_lookup unit = Some conv -> Spec.valid_measure measure = true ->
  Spec.pseudocounts method c = Some (a, b) ->
  switchboard CMW c method unit measure kwargs
  = (x <- call_with "Dirichlet" kwargs (Dirichlet c a b measure) ;;
     Return (mul conv x)).
Proof.
  intros Hu Hm. unfold Spec.pseudocounts, switchboard.
  rewrite Hu. fold (Spec.valid_measure measure). rewrite Hm. cbn [negb].
  destruct (method =? "Jeffreys") eqn:E1;
    [apply String.eqb_eq in E1; subst method; now intros [= <- <-]|].
  destruct (method =? "Laplace") eqn:E2;
    [apply String.eqb_eq in E2; subst method; now intros [= <- <-]|].
  destruct (method =? "SG") eqn:E3;
    [apply String.eqb_eq in E3; subst method; now intros [= <- <-]|].
  destruct (method =? "minimax") eqn:E4;
    [apply String.eqb_eq in E4; subst method; now intros [= <- <-]|].
  discriminate.
Qed.

(** The estimate of a method that is not [CMW]: the value the Naive
    estimator returns for [naive], the value the Dirichlet estimator
    returns with the method's pseudocounts for the four named methods. A
    valid measure and a recognized method have one. *)
Lemma estimate_exists (c : t) (method measure : string) :
  Spec.valid_measure measure = true ->
  Spec.known_method method = true -> method <> "CMW" ->
  exists x,
    (method = "naive" /\ Naive c measure = Return x)
    \/ (exists a b, Spec.pseudocounts method c = Some (a, b)
                    /\ Dirichlet c a b measure = Return x).
Proof.
  intros Hm Hk HCMW.
  unfold Spec.known_method, str_in, existsb in Hk.
  destruct (method =? "naive") eqn:E0.
  { apply String.eqb_eq in E0.
    destruct (Naive_returns c measure Hm) as [x Hx].
    exists x. left. split; assumption. }
  destruct (method =? "CMW") eqn:E1;
    [apply String.eqb_eq in E1; contradiction|].
  assert (Hp : exists a b, Spec.pseudocounts method c = Some (a, b)).
  { unfold Spec.pseudocounts.
    destruct (method =? "Jeffreys"); [eexists _, _; reflexivity|].
    destruct (method =? "Laplace"); [eexists _, _; reflexivity|].
    destruct (method =? "SG"); [eexists _, _; reflexivity|].
    destruct (method =? "minimax"); [eexists _, _; reflexivity|].
    discriminate. }
  destruct Hp as (a & b & Hp).
  destruct (Dirichlet_returns c a b measure Hm) as [x Hx].
  exists x. right. exists a, b. split; assumption.
Qed.

(** Called without further keywords in a valid unit, the switchboard
    returns that estimate times the factor of the unit. *)
Lemma switchboard_of_estimate CMW (c : t) (method : string)
      (unit : option string) (conv : float) (measure : string) (x : float) :
  (method = "naive" /\ Naive c measure = Return x)
  \/ (exists a b, Spec.pseudocounts method c = Some (a, b)
                  /\ Dirichlet c a b measure = Return x) ->
  unit_lookup unit = Some conv -> Spec.valid_measure measure = true ->
  switchboard CMW c method unit measure [] = Return (mul conv x).
Proof.
  intros [[-> Hn] | (a & b & Hp & Hd)] Hu Hm.
  - unfold switchboard. rewrite Hu.
    fold (Spec.valid_measure measure). rewrite Hm. cbn [negb].
    change ("naive" =? "naive") with true. cbv iota.
    cbn [call_with]. rewrite Hn. reflexivity.
  - rewrite (switchboard_Dirichlet CMW c method unit conv measure [] a b
               Hu Hm Hp).
    cbn [call_with]. rewrite Hd. reflexivity.
Qed.

(** C6. For every summary, valid measure and recognized method other
    than [CMW], the call of the switchboard (with no further keyword)
    returns in each valid unit: in [ln] the estimate [x] of the method
    itself, in [log2] that estimate divided by [ln 2], in [log10] that
    estimate divided by [ln 10]; in each unit the returned value is [x]
    times the unit's factor (1, 1/ln 2, 1/ln 10). *)
Theorem unit_conversion_linear CMW (c : t) (method measure : string) :
  Spec.valid_measure measure = true ->
  Spec.known_method method = true -> method <> "CMW" ->
  exists x,
    ((method = "naive" /\ Naive c measure = Return x)
     \/ (exists a b, Spec.pseudocounts method c = Some (a, b)
                     /\ Dirichlet c a b measure = Return x))
    /\ switchboard CMW c method (Some "ln") measure [] = Return x
    /\ switchboard CMW c method (Some "log2") measure []
       = Return (div x (Fin (ln 2)))
    /\ switchboard CMW c method (Some "log10") measure []
       = Return (div x (Fin (ln 10)))
    /\ (forall u k, Spec.unit_factor u = Some k ->
          switchboard CMW c method (Some u) measure []
          = Return (mul (Fin k) x)).
Proof.
  intros Hm Hk HCMW.
  destruct (estimate_exists c method measure Hm Hk HCMW) as [x Hx].
  exists x.
  assert (Hgen : forall u k, Spec.unit_factor u = Some k ->
            switchboard CMW c method (Some u) measure []
            = Return (mul (Fin k) x)).
  { intros u k Hu.
    apply (switchboard_of_estimate CMW c method (Some u) (Fin k) measure x Hx);
      [|exact Hm].
    rewrite unit_lookup_factor, Hu. reflexivity. }
  split; [exact Hx|]. split; [|split; [|split; [|exact Hgen]]].
  - rewrite (Hgen "ln" 1) by reflexivity. now rewrite mul_one.
  - rewrite (Hgen "log2" (1 / ln 2)) by reflexivity.
    f_equal. apply mul_inv_div. pose proof ln_2_pos. lra.
  - rewrite (Hgen "log10" (1 / ln 10)) by reflexivity.
    f_equal. apply mul_inv_div. pose proof ln_10_pos. lra.
Qed.

(** The instance at [mirror], method [Laplace], unit [log10]. *)
Lemma unit_conversion_linear_witness :
  exists x,
    Dirichlet Examples.mirror (Fin 1) (Fin 1) "Jensen-Shannon" = Return x
    /\ switchboard Examples.no_CMW Examples.mirror "Laplace" (Some "log10")
                   "Jensen-Shannon" []
       = Return (div x (Fin (ln 10))).
Proof.
  destruct (unit_conversion_linear Examples.no_CMW Examples.mirror
              "Laplace" "Jensen-Shannon" eq_refl eq_refl
              ltac:(discriminate))
    as (x & Htie & _ & _ & H10 & _).
  exists x. split; [|exact H10].
  destruct Htie as [[E _] | (a & b & Hp & Hd)]; [discriminate E|].
  change (Some (Fin 1, Fin 1) = Some (a, b)) in Hp.
  injection Hp as <- <-. exact Hd.
Defined.

(** C4. With a valid unit and measure, the switchboard resolves the
    method names as the table of section 4.7 states: [naive] calls the
    Naive estimator; [Jeffreys] calls the Dirichlet estimator with
    [a = b = 0.5], [Laplace] with [a = b = 1], [SG] with [a = 1/Kobs_A],
    [b = 1/Kobs_B], and [minimax] with [a = sqrt(N_A)/Kobs_A],
    [b = sqrt(N_B)/Kobs_B]; the result is the estimate times the unit's
    factor. *)
Theorem switchboard_dispatch CMW (c : t) (method : string)
        (unit : option string) (conv : float) (measure : string)
        (kwargs : list string) :
  unit_lookup unit = Some conv -> Spec.valid_measure measure = true ->
  (method = "naive" ->
   switchboard CMW c method unit measure kwargs
   = (x <- call_with "Naive" kwargs (Naive c measure) ;;
      Return (mul conv x)))
  /\ (forall a b, Spec.pseudocounts method c = Some (a, b) ->
        switchboard CMW c method unit measure kwargs
        = (x <- call_with "Dirichlet" kwargs (Dirichlet c a b measure) ;;
           Return (mul conv x)))
  /\ (forall a b,
        (0 < Experiment_Compact.Kobs (compact_A c))%Z ->
        (0 < Experiment_Compact.Kobs (compact_B c))%Z ->
        (0 <= N_A c)%Z -> (0 <= N_B c)%Z ->
        Spec.real_pseudocounts method c = Some (a, b) ->
        switchboard CMW c method unit measure kwargs
        = (x <- call_with "Dirichlet" kwargs
                  (Dirichlet c (Fin a) (Fin b) measure) ;;
           Return (mul conv x))).
Proof.
  intros Hu Hm. split; [|split].
  - intros ->. unfold switchboard.
    rewrite Hu. fold (Spec.valid_measure measure). rewrite Hm. reflexivity.
  - intros a b. now apply switchboard_Dirichlet.
  - intros a b HKA HKB HNA HNB Hab.
    apply switchboard_Dirichlet; try assumption.
    now apply pseudocounts_real.
Qed.

(** The instance at [mirror] ([N_A = N_B = 3], [Kobs_A = Kobs_B = 2]),
    method [minimax]. *)
Lemma switchboard_dispatch_witness :
  switchboard Examples.no_CMW Examples.mirror "minimax" (Some "ln")
              "Kullback-Leibler" []
  = (x <- call_with "Dirichlet" []
            (Dirichlet Examples.mirror (Fin (R_sqrt.sqrt 3 / 2))
                       (Fin (R_sqrt.sqrt 3 / 2)) "Kullback-Leibler") ;;
     Return (mul (Fin 1) x)).
Proof.
  apply (proj2 (proj2 (switchboard_dispatch Examples.no_CMW Examples.mirror
                         "minimax" (Some "ln") (Fin 1) "Kullback-Leibler" []
                         eq_refl eq_refl)));
    first [reflexivity | discriminate].
Defined.

End SwitchboardClaims.

(** ** Section 4.2: the posterior weight *)

Section PosteriorWeight.

Import Np aux_definitions.

Variable loggamma : R -> R.

Lemma rdot_hist (g : R -> R) (alpha : R) (hist : list (Z * Z)) :
  rdot (map IZR (map snd hist))
       (map g (map (fun n => n + alpha) (map IZR (map fst hist))))
  = fold_right Rplus 0
      (map (fun '(n, f) => IZR f * g (IZR n + alpha)) hist).
Proof.
  unfold rdot. rewrite !map_map, zipWith_map. f_equal.
  apply map_ext. now intros [n f].
Qed.

(** C2. For a positive [alpha], [measureMu] is the exponential of
    [logGamma(K alpha) - K logGamma(alpha)
     + sum ff logGamma(nn + alpha) - logGamma(N + K alpha)],
    and the weight is not negative (it is positive). *)
Theorem measureMu_formula (alpha : R) (c : Experiment_Compact.t) :
  0 < alpha ->
  measureMu loggamma alpha c = exp (Spec.LogMu_spec loggamma alpha c)
  /\ 0 <= measureMu loggamma alpha c
  /\ 0 < measureMu loggamma alpha c.
Proof.
  intros _.
  assert (H : measureMu loggamma alpha c
              = exp (Spec.LogMu_spec loggamma alpha c)).
  { unfold measureMu, Spec.LogMu_spec, LogGmm,
      Experiment_Compact.nn, Experiment_Compact.ff.
    rewrite rdot_hist. f_equal. lra. }
  rewrite H. pose proof (exp_pos (Spec.LogMu_spec loggamma alpha c)).
  repeat split; lra.
Qed.

(** The value at [target = psi(K alpha0 + 1) - psi(alpha0 + 1)]: [alpha0]
    is a root of the entropy-vs-alpha relation. *)
Lemma implicit_entropy_vs_alpha_root (polygamma : nat -> R -> R)
      (alpha0 K : R) :
  implicit_entropy_vs_alpha polygamma alpha0
    (D_diGmm polygamma (K * alpha0 + 1) (alpha0 + 1)) K = 0.
Proof.
  unfold implicit_entropy_vs_alpha. lra.
Qed.

End PosteriorWeight.

(** The instance at [alpha = 1/2] on the counts (0, 1). *)
Lemma measureMu_formula_witness :
  0 <= aux_definitions.measureMu Examples.stirling (1 / 2)
         (Examples.experiment 1 2 1 [(0, 1); (1, 1)]%Z).
Proof.
  apply (measureMu_formula Examples.stirling (1 / 2)
           (Examples.experiment 1 2 1 [(0, 1); (1, 1)]%Z)).
  lra.
Defined.

(** The instance at [twin] with Jeffreys' pseudocounts. *)
Lemma Dirichlet_all_categories_witness :
  default_divergence.Dirichlet Examples.twin (Np.Fin 0.5) (Np.Fin 0.5)
    "Jensen-Shannon"
  = Spec.Dirichlet_spec Examples.twin (Np.Fin 0.5) (Np.Fin 0.5)
      "Jensen-Shannon".
Proof.
  apply (Dirichlet_all_categories Examples.twin 0.5 0.5 "Jensen-Shannon");
    [reflexivity | lra | lra].
Defined.

(** * Further properties of the estimators *)

(** ** Bounds on the summands *)

Section SummandBounds.

Import Py Np.
Local Open Scope string_scope.

Lemma ln_le_minus_1 (y : R) : 0 < y -> ln y <= y - 1.
Proof.
  intros Hy. destruct (Rle_or_lt (ln y) (y - 1)) as [H|H]; [exact H|].
  apply exp_increasing in H. rewrite exp_ln in H by assumption.
  pose proof (exp_ineq1_le (y - 1)). lra.
Qed.

Lemma ln_ge_1_minus_inv (y : R) : 0 < y -> 1 - / y <= ln y.
Proof.
  intros Hy. pose proof (Rinv_0_lt_compat y Hy) as Hi.
  pose proof (ln_le_minus_1 (/ y) Hi) as H.
  rewrite ln_Rinv in H by assumption. lra.
Qed.

(** [x ln(x/y) >= x - y]. *)
Lemma xlnxy_lower (x y : R) : 0 < x -> 0 < y -> x - y <= x * ln (x / y).
Proof.
  intros Hx Hy.
  assert (Hq : 0 < x / y) by (apply Rdiv_lt_0_compat; assumption).
  pose proof (ln_ge_1_minus_inv (x / y) Hq) as H.
  replace (/ (x / y)) with (y / x) in H by (field; lra).
  apply (Rmult_le_compat_l x) in H; [|lra].
  replace (x * (1 - y / x)) with (x - y) in H by (field; lra).
  exact H.
Qed.

Lemma KL_term_finite (x y : R) :
  0 < x -> 0 < y ->
  Spec.KL_term (Fin x) (Fin y) = Fin (x * ln (x / y)).
Proof.
  intros Hx Hy. unfold Spec.KL_term.
  rewrite div_Fin by lra.
  rewrite log_Fin by (apply Rdiv_lt_0_compat; assumption).
  reflexivity.
Qed.

Lemma JS_term_finite (x y : R) :
  0 < x -> 0 < y ->
  exists t, Spec.JS_term (Fin x) (Fin y) = Fin t
            /\ 0 <= t <= (x + y) * ln 2.
Proof.
  intros Hx Hy. unfold Spec.JS_term.
  rewrite add_Fin, mul_Fin.
  set (m := 0.5 * (x + y)).
  assert (Hm : 0 < m) by (unfold m; lra).
  rewrite !div_Fin by lra.
  rewrite !log_Fin by (apply Rdiv_lt_0_compat; assumption).
  rewrite !mul_Fin, add_Fin.
  eexists. split; [reflexivity|].
  pose proof (xlnxy_lower x m Hx Hm) as HlA.
  pose proof (xlnxy_lower y m Hy Hm) as HlB.
  assert (HuA : ln (x / m) <= ln 2).
  { destruct (Req_dec (x / m) 2) as [->|Hne]; [lra|].
    left. apply ln_increasing; [apply Rdiv_lt_0_compat; assumption|].
    apply (Rmult_lt_reg_r m); [assumption|].
    unfold Rdiv. rewrite Rmult_assoc, Rinv_l by lra. unfold m. lra. }
  assert (HuB : ln (y / m) <= ln 2).
  { destruct (Req_dec (y / m) 2) as [->|Hne]; [lra|].
    left. apply ln_increasing; [apply Rdiv_lt_0_compat; assumption|].
    apply (Rmult_lt_reg_r m); [assumption|].
    unfold Rdiv. rewrite Rmult_assoc, Rinv_l by lra. unfold m. lra. }
  apply (Rmult_le_compat_l x) in HuA; [|lra].
  apply (Rmult_le_compat_l y) in HuB; [|lra].
  unfold m in *. split; lra.
Qed.

(** On a table of positive frequencies both measures are finite; the
    Kullback-Leibler sum is at least the difference of the two total
    frequencies and the Jensen-Shannon value lies between zero and
    [ln 2] times the mean total frequency. *)
Lemma divergence_KL_finite (frame : string) (rows : list (Z * R * R)) :
  Forall Weights.positive_row rows ->
  exists v, Spec.divergence "Kullback-Leibler" frame
              (map Weights.lift_row rows) = Return (Fin v)
            /\ Weights.weight_A rows - Weights.weight_B rows <= v.
Proof.
  intros Hrows. unfold Spec.divergence. rewrite String.eqb_refl.
  assert (H : exists v,
             fsum (map (fun '(f, hA, hB) =>
                          mul (of_int f) (Spec.KL_term hA hB))
                       (map Weights.lift_row rows)) = Fin v
             /\ Weights.weight_A rows - Weights.weight_B rows <= v).
  { induction Hrows as [|[[f x] y] rows (Hf & Hx & Hy) _ IH].
    - exists 0. split; [reflexivity|].
      unfold Weights.weight_A, Weights.weight_B. simpl. lra.
    - destruct IH as (v & Hv & Hle).
      cbn [map Weights.lift_row fsum fold_right].
      unfold fsum in Hv. rewrite Hv.
      rewrite KL_term_finite by assumption.
      unfold of_int. rewrite mul_Fin, add_Fin.
      eexists. split; [reflexivity|].
      pose proof (xlnxy_lower x y Hx Hy) as Hl.
      apply (Rmult_le_compat_l (IZR f)) in Hl; [|lra].
      unfold Weights.weight_A, Weights.weight_B in *.
      cbn [map fold_right]. lra. }
  destruct H as (v & -> & Hv). exists v. split; [reflexivity | exact Hv].
Qed.

Lemma divergence_JS_finite (frame : string) (rows : list (Z * R * R)) :
  Forall Weights.positive_row rows ->
  exists v, Spec.divergence "Jensen-Shannon" frame
              (map Weights.lift_row rows) = Return (Fin v)
            /\ 0 <= v
               <= 0.5 * (Weights.weight_A rows + Weights.weight_B rows) * ln 2.
Proof.
  intros Hrows. unfold Spec.divergence.
  change ("Jensen-Shannon" =? "Kullback-Leibler") with false.
  rewrite String.eqb_refl.
  assert (H : exists s,
             fsum (map (fun '(f, hA, hB) =>
                          mul (of_int f) (Spec.JS_term hA hB))
                       (map Weights.lift_row rows)) = Fin s
             /\ 0 <= s
                <= (Weights.weight_A rows + Weights.weight_B rows) * ln 2).
  { induction Hrows as [|[[f x] y] rows (Hf & Hx & Hy) _ IH].
    - exists 0. split; [reflexivity|].
      unfold Weights.weight_A, Weights.weight_B. simpl. lra.
    - destruct IH as (s & Hs & Hle).
      cbn [map Weights.lift_row fsum fold_right].
      unfold fsum in Hs. rewrite Hs.
      destruct (JS_term_finite x y Hx Hy) as (t & -> & Ht).
      unfold of_int. rewrite mul_Fin, add_Fin.
      eexists. split; [reflexivity|].
      unfold Weights.weight_A, Weights.weight_B in *.
      cbn [map fold_right].
      assert (0 <= IZR f * t) by (apply Rmult_le_pos; lra).
      assert (IZR f * t <= IZR f * ((x + y) * ln 2))
        by (apply Rmult_le_compat_l; lra).
      split; lra. }
  destruct H as (s & -> & Hs). rewrite mul_Fin.
  eexists. split; [reflexivity|]. lra.
Qed.

End SummandBounds.

(** ** Finite results and bounds *)

Section EstimatorBounds.

Import Py Np Divergence_Compact default_divergence.
Local Open Scope string_scope.

Lemma rsum_scaled {X} (f n : X -> Z) (a D : R) (l : list X) :
  fold_right Rplus 0
    (map (fun r => IZR (f r) * ((IZR (n r) + a) / D)) l)
  = (IZR (Np.sum (map (fun r => (f r * n r)%Z) l))
     + a * IZR (Np.sum (map f l))) / D.
Proof.
  induction l as [|x l IH]; simpl.
  - unfold Rdiv. ring.
  - rewrite IH, !plus_IZR, mult_IZR. unfold Rdiv. ring.
Qed.

Lemma rsum_scaled0 {X} (f n : X -> Z) (D : R) (l : list X) :
  fold_right Rplus 0 (map (fun r => IZR (f r) * (IZR (n r) / D)) l)
  = IZR (Np.sum (map (fun r => (f r * n r)%Z) l)) / D.
Proof.
  induction l as [|x l IH]; simpl.
  - unfold Rdiv. ring.
  - rewrite IH, !plus_IZR, mult_IZR. unfold Rdiv. ring.
Qed.

Lemma sum_filter_le {X} (g : X -> Z) (p : X -> bool) (l : list X) :
  (forall x, In x l -> (0 <= g x)%Z) ->
  (Np.sum (map g (filter p l)) <= Np.sum (map g l))%Z.
Proof.
  induction l as [|x l IH]; simpl; intros H; [lia|].
  assert (0 <= g x)%Z by (apply H; now left).
  assert (Np.sum (map g (filter p l)) <= Np.sum (map g l))%Z
    by (apply IH; intros; apply H; now right).
  destruct (p x); simpl; lia.
Qed.

Lemma N_B_positive (c : t) (r : row) :
  invariant c = true -> In r (table c) -> (0 < cnt_B r)%Z -> (0 < N_B c)%Z.
Proof.
  intros Hinv Hin Hpos.
  destruct (invariant_inv c Hinv) as (Hrows & _ & _ & HB).
  rewrite <- HB.
  assert (freq r * cnt_B r
          <= Np.sum (map (fun r => freq r * cnt_B r) (table c)))%Z.
  { apply (sum_map_In_le (fun r => freq r * cnt_B r)%Z); [|assumption].
    intros y Hy. apply Hrows in Hy. nia. }
  apply Hrows in Hin. nia.
Qed.

(** The Dirichlet estimator sums over [Dirichlet_table], whose rows are
    positive. *)
Lemma Dirichlet_table_rows (c : t) (a b : R) (measure : string) :
  invariant c = true -> 0 < a -> 0 < b ->
  Dirichlet c (Fin a) (Fin b) measure
  = Spec.divergence measure "Dirichlet"
      (map Weights.lift_row (Weights.Dirichlet_table c a b))
  /\ Forall Weights.positive_row (Weights.Dirichlet_table c a b).
Proof.
  intros Hinv Ha Hb.
  destruct (invariant_inv c Hinv) as (Hrows & _).
  destruct (N_nonneg c Hinv) as [HNA HNB].
  split.
  - rewrite Dirichlet_rows_sum. f_equal.
    unfold Weights.Dirichlet_table. rewrite map_map.
    apply map_ext_in. intros r Hin.
    destruct (Hrows r Hin) as (HcA & HcB & _).
    destruct (adjusted_pos c r a (cnt_A r) (N_A c) Hinv Hin HcA HNA Ha)
      as (hA & _ & -> & ->).
    destruct (adjusted_pos c r b (cnt_B r) (N_B c) Hinv Hin HcB HNB Hb)
      as (hB & _ & -> & ->).
    reflexivity.
  - unfold Weights.Dirichlet_table. apply Forall_map, Forall_forall.
    intros r Hin. destruct (Hrows r Hin) as (HcA & HcB & Hf).
    destruct (adjusted_pos c r a (cnt_A r) (N_A c) Hinv Hin HcA HNA Ha)
      as (hA & HhA & _ & EA).
    destruct (adjusted_pos c r b (cnt_B r) (N_B c) Hinv Hin HcB HNB Hb)
      as (hB & HhB & _ & EB).
    cbn. rewrite <- EA, <- EB. apply IZR_le in Hf. repeat split; lra.
Qed.

(** The adjusted frequencies of each experiment sum to one (to zero on
    the empty table). *)
Lemma Dirichlet_table_weights (c : t) (a b : R) :
  invariant c = true -> 0 < a -> 0 < b ->
  (table c = [] /\ Weights.Dirichlet_table c a b = [])
  \/ (Weights.weight_A (Weights.Dirichlet_table c a b) = 1
      /\ Weights.weight_B (Weights.Dirichlet_table c a b) = 1).
Proof.
  intros Hinv Ha Hb.
  destruct (table c) as [|r0 l] eqn:Htab.
  { left. split; [reflexivity|]. unfold Weights.Dirichlet_table.
    now rewrite Htab. }
  right.
  assert (Hin : In r0 (table c)) by (rewrite Htab; now left).
  pose proof (sum_ff_pos c r0 Hinv Hin) as HS. apply IZR_lt in HS.
  destruct (N_nonneg c Hinv) as [HNA HNB]. apply IZR_le in HNA, HNB.
  destruct (invariant_inv c Hinv) as (_ & _ & HA & HB).
  assert (0 < a * IZR (Np.sum (ff c))) by (apply Rmult_lt_0_compat; lra).
  assert (0 < b * IZR (Np.sum (ff c))) by (apply Rmult_lt_0_compat; lra).
  unfold Weights.weight_A, Weights.weight_B, Weights.Dirichlet_table.
  rewrite !map_map. cbn beta iota.
  split.
  - rewrite (rsum_scaled freq cnt_A). rewrite HA. fold (ff c).
    field. lra.
  - rewrite (rsum_scaled freq cnt_B). rewrite HB. fold (ff c).
    field. lra.
Qed.

(** X1. On a summary that satisfies the invariant, with pseudocounts
    [a, b > 0], the Dirichlet Kullback-Leibler estimate is a finite number
    and it is not negative. *)
Theorem Dirichlet_KL_nonnegative (c : t) (a b : R) :
  invariant c = true -> 0 < a -> 0 < b ->
  exists v, Dirichlet c (Fin a) (Fin b) "Kullback-Leibler" = Return (Fin v)
            /\ 0 <= v.
Proof.
  intros Hinv Ha Hb.
  destruct (Dirichlet_table_rows c a b "Kullback-Leibler" Hinv Ha Hb)
    as [-> Hpos].
  destruct (divergence_KL_finite "Dirichlet" _ Hpos) as (v & Hv & Hle).
  exists v. split; [exact Hv|].
  destruct (Dirichlet_table_weights c a b Hinv Ha Hb) as [[_ E]|[EA EB]].
  - rewrite E in Hle. unfold Weights.weight_A, Weights.weight_B in Hle.
    simpl in Hle. lra.
  - rewrite EA, EB in Hle. lra.
Qed.

Lemma Dirichlet_KL_nonnegative_witness :
  exists v, Dirichlet Examples.lopsided (Fin 0.5) (Fin 0.5) "Kullback-Leibler"
            = Return (Fin v) /\ 0 <= v.
Proof.
  apply (Dirichlet_KL_nonnegative Examples.lopsided 0.5 0.5);
    [reflexivity | lra | lra].
Defined.

(** X2. Under the same conditions, and in exact arithmetic, the
    Dirichlet Jensen-Shannon estimate is a finite number between zero and
    [ln 2]. The bounds are those of the real-valued formula: the rounding
    of binary64, which is outside this model, can move a value that is
    close to a bound across it. *)
Theorem Dirichlet_JS_bounded (c : t) (a b : R) :
  invariant c = true -> 0 < a -> 0 < b ->
  exists v, Dirichlet c (Fin a) (Fin b) "Jensen-Shannon" = Return (Fin v)
            /\ 0 <= v <= ln 2.
Proof.
  intros Hinv Ha Hb.
  destruct (Dirichlet_table_rows c a b "Jensen-Shannon" Hinv Ha Hb)
    as [-> Hpos].
  destruct (divergence_JS_finite "Dirichlet" _ Hpos) as (v & Hv & Hle).
  exists v. split; [exact Hv|].
  pose proof ln_2_pos.
  destruct (Dirichlet_table_weights c a b Hinv Ha Hb) as [[_ E]|[EA EB]].
  - rewrite E in Hle. unfold Weights.weight_A, Weights.weight_B in Hle.
    simpl in Hle. lra.
  - rewrite EA, EB in Hle. lra.
Qed.

Lemma Dirichlet_JS_bounded_witness :
  exists v, Dirichlet Examples.lopsided (Fin 1) (Fin 1) "Jensen-Shannon"
            = Return (Fin v) /\ 0 <= v <= ln 2.
Proof.
  apply (Dirichlet_JS_bounded Examples.lopsided 1 1);
    [reflexivity | lra | lra].
Defined.

(** The Naive estimator sums over [Naive_table], whose rows are positive
    and whose total frequencies are at most one. *)
Lemma Naive_table_rows (c : t) (measure : string) :
  invariant c = true ->
  Naive c measure
  = Spec.divergence measure "Naive"
      (map Weights.lift_row (Weights.Naive_table c))
  /\ Forall Weights.positive_row (Weights.Naive_table c)
  /\ Weights.weight_A (Weights.Naive_table c) <= 1
  /\ Weights.weight_B (Weights.Naive_table c) <= 1.
Proof.
  intros Hinv.
  destruct (invariant_inv c Hinv) as (Hrows & _ & HA & HB).
  assert (Hkept : forall r, In r (filter Spec.observed_in_both (table c)) ->
            In r (table c) /\ 0 < IZR (cnt_A r) /\ 0 < IZR (cnt_B r)
            /\ 0 < IZR (N_A c) /\ 0 < IZR (N_B c) /\ 0 < IZR (freq r)).
  { intros r Hin. apply filter_In in Hin. destruct Hin as [Hin Hobs].
    unfold Spec.observed_in_both in Hobs.
    apply andb_true_iff in Hobs. destruct Hobs as [HpA HpB].
    apply Z.ltb_lt in HpA, HpB.
    pose proof (N_A_pos c r Hinv Hin HpA) as HNA.
    pose proof (N_B_positive c r Hinv Hin HpB) as HNB.
    destruct (Hrows r Hin) as (_ & _ & Hf).
    apply IZR_lt in HpA, HpB, HNA, HNB. apply IZR_le in Hf.
    repeat split; try assumption; lra. }
  split; [|split; [|split]].
  - rewrite Naive_rows. unfold Spec.Naive_spec. f_equal.
    unfold Weights.Naive_table. rewrite map_map.
    apply map_ext_in. intros r Hin.
    destruct (Hkept r Hin) as (_ & _ & _ & HNA & HNB & _).
    cbn [Weights.lift_row]. unfold of_int. rewrite !div_Fin by lra.
    reflexivity.
  - unfold Weights.Naive_table. apply Forall_map, Forall_forall.
    intros r Hin. destruct (Hkept r Hin) as (_ & HA' & HB' & HNA & HNB & Hf).
    cbn. repeat split; try assumption; apply Rdiv_lt_0_compat; assumption.
  - unfold Weights.weight_A, Weights.Naive_table.
    rewrite map_map. cbn beta iota. rewrite (rsum_scaled0 freq cnt_A).
    pose proof (sum_filter_le (fun r => (freq r * cnt_A r)%Z)
                  Spec.observed_in_both (table c)) as Hle.
    rewrite HA in Hle.
    assert (Hle' : (Np.sum (map (fun r => (freq r * cnt_A r)%Z)
                              (filter Spec.observed_in_both (table c)))
                    <= N_A c)%Z)
      by (apply Hle; intros x Hx; apply Hrows in Hx; nia).
    destruct (filter Spec.observed_in_both (table c)) as [|r0 l] eqn:E.
    { simpl. unfold Rdiv. lra. }
    assert (Hin0 : In r0 (r0 :: l)) by now left.
    destruct (Hkept r0 Hin0) as (_ & _ & _ & HNA & _).
    apply IZR_le in Hle'.
    apply (Rmult_le_reg_r (IZR (N_A c))); [assumption|].
    unfold Rdiv. rewrite Rmult_assoc, Rinv_l by lra. lra.
  - unfold Weights.weight_B, Weights.Naive_table.
    rewrite map_map. cbn beta iota. rewrite (rsum_scaled0 freq cnt_B).
    pose proof (sum_filter_le (fun r => (freq r * cnt_B r)%Z)
                  Spec.observed_in_both (table c)) as Hle.
    rewrite HB in Hle.
    assert (Hle' : (Np.sum (map (fun r => (freq r * cnt_B r)%Z)
                              (filter Spec.observed_in_both (table c)))
                    <= N_B c)%Z)
      by (apply Hle; intros x Hx; apply Hrows in Hx; nia).
    destruct (filter Spec.observed_in_both (table c)) as [|r0 l] eqn:E.
    { simpl. unfold Rdiv. lra. }
    assert (Hin0 : In r0 (r0 :: l)) by now left.
    destruct (Hkept r0 Hin0) as (_ & _ & _ & _ & HNB & _).
    apply IZR_le in Hle'.
    apply (Rmult_le_reg_r (IZR (N_B c))); [assumption|].
    unfold Rdiv. rewrite Rmult_assoc, Rinv_l by lra. lra.
Qed.

(** X3. On a summary that satisfies the invariant the Naive estimator
    returns a finite number for both measures (no division by zero, no
    logarithm of zero), and in exact arithmetic its Jensen-Shannon
    estimate lies between zero and [ln 2]. The bounds are those of the
    real-valued formula: the rounding of binary64, which is outside this
    model, can move a value that is close to a bound across it. *)
Theorem Naive_finite_JS_bounded (c : t) :
  invariant c = true ->
  (exists kl, Naive c "Kullback-Leibler" = Return (Fin kl))
  /\ (exists js, Naive c "Jensen-Shannon" = Return (Fin js)
                 /\ 0 <= js <= ln 2).
Proof.
  intros Hinv. split.
  - destruct (Naive_table_rows c "Kullback-Leibler" Hinv) as (-> & Hpos & _).
    destruct (divergence_KL_finite "Naive" _ Hpos) as (v & Hv & _).
    exists v. exact Hv.
  - destruct (Naive_table_rows c "Jensen-Shannon" Hinv)
      as (-> & Hpos & HwA & HwB).
    destruct (divergence_JS_finite "Naive" _ Hpos) as (v & Hv & Hle).
    exists v. split; [exact Hv|]. pose proof ln_2_pos. nra.
Qed.

Lemma Naive_finite_JS_bounded_witness :
  exists js, Naive Examples.mirror "Jensen-Shannon" = Return (Fin js)
             /\ 0 <= js <= ln 2.
Proof.
  apply (proj2 (Naive_finite_JS_bounded Examples.mirror eq_refl)).
Defined.

End EstimatorBounds.

(** ** Edge cases of the estimators *)

Section EstimatorEdges.

Import Py Np Divergence_Compact default_divergence.
Local Open Scope string_scope.

Lemma filter_none {X} (p : X -> bool) (l : list X) :
  (forall x, In x l -> p x = false) -> filter p l = [].
Proof.
  induction l as [|x l IH]; simpl; intros H; [reflexivity|].
  rewrite (H x) by now left. apply IH. intros; apply H; now right.
Qed.

Lemma filter_all {X} (p : X -> bool) (l : list X) :
  (forall x, In x l -> p x = true) -> filter p l = l.
Proof.
  induction l as [|x l IH]; simpl; intros H; [reflexivity|].
  rewrite (H x) by now left. f_equal. apply IH. intros; apply H; now right.
Qed.

(** X4. When no category is observed in both experiments (disjoint
    supports, or an empty table) the Naive estimator returns exactly zero
    for both measures, whatever the totals. *)
Theorem Naive_no_common_category (c : t) (measure : string) :
  Spec.valid_measure measure = true ->
  (forall r, In r (table c) -> (cnt_A r <= 0)%Z \/ (cnt_B r <= 0)%Z) ->
  Naive c measure = Return (Fin 0).
Proof.
  intros Hm Hrows. rewrite Naive_rows. unfold Spec.Naive_spec.
  rewrite filter_none.
  - apply divergence_diag; [assumption|]. intros f hA hB [].
  - intros r Hin. unfold Spec.observed_in_both.
    apply andb_false_iff. rewrite !Z.ltb_ge.
    destruct (Hrows r Hin); [left | right]; assumption.
Qed.

Lemma Naive_no_common_category_witness :
  Naive (with_table Examples.lopsided [Examples.R3 3 0 1; Examples.R3 0 2 1])
        "Kullback-Leibler"
  = Return (Fin 0).
Proof.
  apply Naive_no_common_category; [reflexivity|].
  intros r [<-|[<-|[]]]; [right | left]; discriminate.
Defined.

Lemma divergence_frame (measure frame frame' : string)
      (rows : list (Z * float * float)) :
  Spec.valid_measure measure = true ->
  Spec.divergence measure frame rows = Spec.divergence measure frame' rows.
Proof.
  intros Hm. unfold Spec.divergence.
  destruct (valid_measure_cases measure Hm) as [-> | ->]; reflexivity.
Qed.

(** X5. With zero pseudocounts, on a table where every category is
    observed in both experiments, the Dirichlet estimator is the Naive
    estimator. *)
Theorem Dirichlet_zero_is_Naive (c : t) (measure : string) :
  Spec.valid_measure measure = true ->
  (forall r, In r (table c) -> (0 < cnt_A r)%Z /\ (0 < cnt_B r)%Z) ->
  Dirichlet c (Fin 0) (Fin 0) measure = Naive c measure.
Proof.
  intros Hm Hrows. rewrite Dirichlet_rows_sum, Naive_rows.
  unfold Spec.Naive_spec. rewrite filter_all.
  - rewrite (divergence_frame measure "Dirichlet" "Naive") by assumption.
    f_equal. apply map_ext. intros r.
    unfold Spec.adjusted, of_int. rewrite !mul_Fin, !add_Fin.
    replace (IZR (cnt_A r) + 0) with (IZR (cnt_A r)) by lra.
    replace (IZR (cnt_B r) + 0) with (IZR (cnt_B r)) by lra.
    replace (IZR (N_A c) + 0 * IZR (Np.sum (ff c))) with (IZR (N_A c)) by lra.
    replace (IZR (N_B c) + 0 * IZR (Np.sum (ff c))) with (IZR (N_B c)) by lra.
    reflexivity.
  - intros r Hin. destruct (Hrows r Hin) as [HA HB].
    unfold Spec.observed_in_both. apply andb_true_iff.
    rewrite !Z.ltb_lt. split; assumption.
Qed.

Lemma Dirichlet_zero_is_Naive_witness :
  Dirichlet Examples.mirror (Fin 0) (Fin 0) "Jensen-Shannon"
  = Naive Examples.mirror "Jensen-Shannon".
Proof.
  apply Dirichlet_zero_is_Naive; [reflexivity|].
  intros r [<-|[<-|[]]]; split; reflexivity.
Defined.

(** With a keyword left over, the switchboard returns for no method
    other than [CMW]. *)
Lemma switchboard_kwargs_not_Return CMW (c : t) (method : string)
      (unit : option string) (measure : string)
      (k : string) (kwargs : list string) :
  method <> "CMW" ->
  is_Return (switchboard CMW c method unit measure (k :: kwargs)) = false.
Proof.
  intros HCMW. unfold switchboard.
  destruct (unit_lookup unit) as [conv|]; [|reflexivity].
  destruct (negb (str_in measure ["Kullback-Leibler"; "Jensen-Shannon"]));
    [reflexivity|].
  destruct (method =? "naive"); [reflexivity|].
  destruct (method =? "CMW") eqn:E;
    [apply String.eqb_eq in E; contradiction|].
  repeat match goal with
         | |- context [if ?m =? ?s then _ else _] =>
             destruct (m =? s); [reflexivity|]
         end.
  reflexivity.
Qed.

(** X6. Any keyword beyond [method], [unit] and [measure] makes every
    call that would reach the Naive or the Dirichlet estimator fail: with a
    valid unit and measure the switchboard ends with the [TypeError] of
    the call, and for no method other than [CMW] does it return. *)
Theorem switchboard_extra_keyword CMW (c : t) (method : string)
        (unit : option string) (measure : string)
        (k : string) (kwargs : list string) :
  method <> "CMW" ->
  is_Return (switchboard CMW c method unit measure (k :: kwargs)) = false
  /\ (Spec.valid_unit unit = true -> Spec.valid_measure measure = true ->
      (method = "naive" ->
       switchboard CMW c method unit measure (k :: kwargs)
       = Raise (TypeError "switchboard" "Naive"))
      /\ (In method ["Jeffreys"; "Laplace"; "SG"; "minimax"] ->
          switchboard CMW c method unit measure (k :: kwargs)
          = Raise (TypeError "switchboard" "Dirichlet"))).
Proof.
  intros HCMW. split.
  - now apply switchboard_kwargs_not_Return.
  - intros Hu Hm. unfold switchboard.
    destruct (unit_lookup unit) as [conv|] eqn:Hl;
      [|apply unit_lookup_valid in Hl; congruence].
    fold (Spec.valid_measure measure). rewrite Hm. cbn [negb].
    split.
    + intros ->. reflexivity.
    + intros [<-|[<-|[<-|[<-|[]]]]]; reflexivity.
Qed.

Lemma switchboard_extra_keyword_witness :
  switchboard Examples.no_CMW Examples.mirror "Laplace" (Some "ln")
              "Jensen-Shannon" ["which"]
  = Raise (TypeError "switchboard" "Dirichlet").
Proof.
  apply (proj2 (switchboard_extra_keyword Examples.no_CMW Examples.mirror
                  "Laplace" (Some "ln") "Jensen-Shannon" "which" []
                  ltac:(discriminate)) eq_refl eq_refl).
  right; left; reflexivity.
Defined.

End EstimatorEdges.

(** * estimate.py *)

(** ** The methods of [Divergence] that call the switchboard *)

Section DivergenceCalls.

Import Py Np Divergence_Compact default_divergence estimate.
Local Open Scope string_scope.

Lemma call_switchboard_not_Return CMW (caller : string) (c : t)
      (which method : string) (unit : option (option string))
      (kwargs : keywords) :
  method <> "CMW" ->
  is_Return (call_switchboard CMW caller c which method unit kwargs) = false.
Proof.
  intros HCMW. unfold call_switchboard.
  destruct (existsb _ (map fst kwargs)); [reflexivity|].
  destruct (str_in "compACT" (map fst kwargs)); [reflexivity|].
  cbn [map fst]. now apply switchboard_kwargs_not_Return.
Qed.

(** X7. Whatever the summary, the unit and the keywords, the methods
    [kullback_leibler], [jensen_shannon] and [hellinger] of [Divergence]
    never return an estimate for a method other than [CMW]: the keyword
    [which] they pass is no parameter of the switchboard, which hands it
    on to [Naive] or [Dirichlet], where it is a [TypeError] (unless the
    switchboard has already rejected the unit, the measure or the
    method). *)
Theorem Divergence_methods_never_return CMW (c : t) (method : string)
        (unit : option string) (kwargs : keywords) :
  method <> "CMW" ->
  is_Return (kullback_leibler CMW c method unit kwargs) = false
  /\ is_Return (jensen_shannon CMW c method unit kwargs) = false
  /\ is_Return (hellinger CMW c method kwargs) = false.
Proof.
  intros HCMW. repeat split; now apply call_switchboard_not_Return.
Qed.

Lemma Divergence_methods_never_return_witness :
  is_Return (kullback_leibler EstimateExamples.which_CMW Examples.mirror
               "naive" (Some "ln") []) = false.
Proof.
  apply (Divergence_methods_never_return EstimateExamples.which_CMW
           Examples.mirror "naive" (Some "ln") []).
  discriminate.
Defined.

(** X8. [hellinger] passes no unit: unless the caller gives one among the
    keywords, the switchboard's default [unit=None] is rejected and the
    call raises the unknown-unit [IOError], for every method. *)
Theorem hellinger_without_unit CMW (c : t) (method : string)
        (kwargs : keywords) :
  existsb (fun k => str_in k ["which"; "method"; "compACT"; "unit"])
          (map fst kwargs) = false ->
  hellinger CMW c method kwargs
  = Raise (IOError "switchboard" "Unknown unit, please choose amongst ").
Proof.
  intros Hk. unfold hellinger, call_switchboard.
  assert (Hnames : forall k, In k (map fst kwargs) ->
            str_in k ["which"; "method"; "compACT"; "unit"] = false).
  { intros k Hin. destruct (str_in k _) eqn:E; [|reflexivity].
    assert (existsb (fun k => str_in k ["which"; "method"; "compACT"; "unit"])
                    (map fst kwargs) = true)
      by (apply existsb_exists; exists k; split; assumption).
    congruence. }
  assert (H1 : existsb (fun k => str_in k ["which"; "method"]) (map fst kwargs)
               = false).
  { apply not_true_is_false. intros E.
    apply existsb_exists in E. destruct E as (k & Hin & Hk').
    apply Hnames in Hin. unfold str_in, existsb in Hin, Hk'.
    destruct (k =? "which"), (k =? "method"); simpl in *; congruence. }
  rewrite H1.
  assert (H2 : str_in "compACT" (map fst kwargs) = false).
  { apply not_true_is_false. intros E.
    unfold str_in in E. apply existsb_exists in E.
    destruct E as (k & Hin & Hk'). apply String.eqb_eq in Hk'. subst k.
    apply Hnames in Hin. discriminate. }
  rewrite H2.
  assert (H3 : dict_get "unit" kwargs = None).
  { clear - Hnames. induction kwargs as [|[k v] l IH]; [reflexivity|].
    cbn [dict_get]. destruct ("unit" =? k) eqn:E.
    - apply String.eqb_eq in E. subst k.
      specialize (Hnames "unit" (or_introl eq_refl)). discriminate.
    - apply IH. intros k' Hin. apply Hnames. now right. }
  rewrite H3. reflexivity.
Qed.

Lemma hellinger_without_unit_witness :
  hellinger EstimateExamples.which_CMW Examples.mirror "CMW" []
  = Raise (IOError "switchboard" "Unknown unit, please choose amongst ").
Proof.
  apply hellinger_without_unit. reflexivity.
Defined.

(** X9. [jensen_shannon] names its measure in [which], not in [measure]:
    with [method="CMW"], a valid unit and no keyword, the switchboard keeps
    its default measure, does not raise its error for [CMW] with another
    measure than Kullback-Leibler, and returns the unit's factor times
    what [CamagliaMoraWalczak( compACT, which="Jensen-Shannon" )] gives;
    [kullback_leibler] makes the same call with [which="Kullback-Leibler"].
    The error for [CMW] is raised only when the caller adds
    [measure="Jensen-Shannon"] itself. *)
Theorem jensen_shannon_CMW_call CMW (c : t)
        (unit : option string) (conv : float) :
  unit_lookup unit = Some conv ->
  jensen_shannon CMW c "CMW" unit []
  = (x <- CMW c [("which", "Jensen-Shannon")] ;; Return (mul conv x))
  /\ kullback_leibler CMW c "CMW" unit []
     = (x <- CMW c [("which", "Kullback-Leibler")] ;; Return (mul conv x))
  /\ jensen_shannon CMW c "CMW" unit [("measure", "Jensen-Shannon")]
     = Raise (IOError "switchboard"
                "Unknown method `CMW` for the chosen measure.").
Proof.
  intros Hu. unfold jensen_shannon, kullback_leibler, call_switchboard.
  cbn [map existsb str_in dict_get filter fst snd].
  change ("measure" =? "measure") with true.
  change (negb (existsb (fun k0 => "measure" =? k0) ["unit"; "measure"]))
    with false.
  cbv iota. unfold switchboard. rewrite Hu.
  repeat split; reflexivity.
Qed.

Lemma jensen_shannon_CMW_call_witness :
  jensen_shannon EstimateExamples.which_CMW Examples.mirror "CMW"
                 (Some "log2") []
  = Return (mul (Fin (1 / ln 2)) (Fin 2)).
Proof.
  rewrite (proj1 (jensen_shannon_CMW_call EstimateExamples.which_CMW
                    Examples.mirror (Some "log2") (Fin (1 / ln 2))
                    ltac:(rewrite unit_lookup_factor; reflexivity))).
  reflexivity.
Defined.

End DivergenceCalls.

(** ** Tables of counts: [groupby], [sort_index], item assignment *)


Section TallyFacts.

Import estimate Tally.

Context {K : Type}.
Variable eqb : K -> K -> bool.
Variable leb : K -> K -> bool.
Hypothesis eqb_spec : forall x y, eqb x y = true <-> x = y.

Lemma sum_app (u v : list Z) : Np.sum (u ++ v) = (Np.sum u + Np.sum v)%Z.
Proof.
  induction u as [|x u IH]; simpl; [reflexivity | rewrite IH; lia].
Qed.

Lemma count_as_sum {X} (p : X -> bool) (l : list X) :
  count p l = Np.sum (map (fun x => if p x then 1 else 0)%Z l).
Proof.
  unfold count. induction l as [|x l IH]; [reflexivity|].
  simpl. destruct (p x); simpl List.length; lia.
Qed.

Lemma wsum_cons (g : K -> Z) (e : K * Z) (m : list (K * Z)) :
  wsum g (e :: m) = (g (fst e) * snd e + wsum g m)%Z.
Proof. reflexivity. Qed.

Lemma wsum_incr (g : K -> Z) (k : K) (m : list (K * Z)) :
  wsum g (incr eqb k m) = (wsum g m + g k)%Z.
Proof.
  induction m as [|[k' v] m IH]; cbn [incr].
  - unfold wsum. simpl. lia.
  - destruct (eqb k k') eqn:E.
    + apply eqb_spec in E. subst k'. rewrite !wsum_cons. simpl. lia.
    + rewrite !wsum_cons, IH. lia.
Qed.

Lemma insert_sorted_perm (e : K * Z) (m : list (K * Z)) :
  Permutation (insert_sorted leb e m) (e :: m).
Proof.
  induction m as [|e' m IH]; cbn [insert_sorted]; [reflexivity|].
  destruct (leb (fst e) (fst e')); [reflexivity|].
  rewrite IH. apply perm_swap.
Qed.

Lemma sort_index_perm (m : list (K * Z)) : Permutation (sort_index leb m) m.
Proof.
  induction m as [|e m IH]; [reflexivity|].
  unfold sort_index in *. cbn [fold_right].
  rewrite insert_sorted_perm. now constructor.
Qed.

Lemma wsum_perm (g : K -> Z) (m m' : list (K * Z)) :
  Permutation m m' -> wsum g m = wsum g m'.
Proof.
  induction 1 as [|e m m' _ IH|e e' m|m1 m2 m3 _ IH1 _ IH2].
  - reflexivity.
  - rewrite !wsum_cons, IH. reflexivity.
  - rewrite !wsum_cons. lia.
  - congruence.
Qed.

Lemma wsum_sort_index (g : K -> Z) (m : list (K * Z)) :
  wsum g (sort_index leb m) = wsum g m.
Proof. apply wsum_perm, sort_index_perm. Qed.

Lemma wsum_fold_incr (g : K -> Z) (l : list K) (m : list (K * Z)) :
  wsum g (fold_left (fun m k => incr eqb k m) l m)
  = (wsum g m + Np.sum (map g l))%Z.
Proof.
  revert m. induction l as [|k l IH]; intros m; simpl; [lia|].
  rewrite IH, wsum_incr. lia.
Qed.

(** The sum of [g(key) * count] over [groupby_size l] is the sum of [g]
    over [l]. *)
Lemma wsum_groupby (g : K -> Z) (l : list K) :
  wsum g (groupby_size eqb leb l) = Np.sum (map g l).
Proof.
  unfold groupby_size. rewrite wsum_sort_index, wsum_fold_incr.
  reflexivity.
Qed.

Lemma total_wsum (m : list (K * Z)) : total m = wsum (fun _ => 1%Z) m.
Proof.
  unfold total, wsum. f_equal. apply map_ext. intros e. lia.
Qed.

Lemma wsum_setitem (g : K -> Z) (k : K) (v : Z) (m : list (K * Z)) :
  wsum g (setitem eqb k v m)
  = (wsum g m - g k * get0 eqb k m + g k * v)%Z.
Proof.
  induction m as [|[k' v'] m IH]; cbn [setitem get0].
  - unfold wsum. simpl. lia.
  - destruct (eqb k k') eqn:E.
    + apply eqb_spec in E. subst k'. rewrite !wsum_cons. simpl. lia.
    + rewrite !wsum_cons, IH. simpl. lia.
Qed.

(** Keys stay distinct. *)
Lemma keys_incr (k : K) (m : list (K * Z)) :
  keys (incr eqb k m) = keys m
  \/ (~ In k (keys m) /\ keys (incr eqb k m) = (keys m ++ [k])%list).
Proof.
  induction m as [|[k' v] m IH]; cbn [incr].
  - right. split; [intros []|reflexivity].
  - destruct (eqb k k') eqn:E; [left; reflexivity|].
    destruct IH as [IH|[Hn IH]].
    + left. unfold keys in *. simpl. now rewrite IH.
    + right. split.
      * intros [Heq|Hin]; [|contradiction].
        simpl in Heq. subst k'.
        assert (eqb k k = true) by now apply eqb_spec. congruence.
      * unfold keys in *. simpl. now rewrite IH.
Qed.

Lemma NoDup_keys_incr (k : K) (m : list (K * Z)) :
  NoDup (keys m) -> NoDup (keys (incr eqb k m)).
Proof.
  intros H. destruct (keys_incr k m) as [->|[Hn ->]]; [assumption|].
  apply NoDup_app; [assumption | repeat constructor; intros [] |].
  intros x Hx [<-|[]]. contradiction.
Qed.

Lemma NoDup_keys_groupby (l : list K) :
  NoDup (keys (groupby_size eqb leb l)).
Proof.
  unfold groupby_size.
  apply (Permutation_NoDup (l := keys (fold_left (fun m k => incr eqb k m) l []))).
  - unfold keys. apply Permutation_map. symmetry. apply sort_index_perm.
  - assert (H : forall m, NoDup (keys m) ->
                NoDup (keys (fold_left (fun m k => incr eqb k m) l m))).
    { induction l as [|k l IH]; intros m Hm; simpl; [assumption|].
      apply IH. now apply NoDup_keys_incr. }
    apply H. constructor.
Qed.

(** With distinct keys an entry is a sum with an indicator. *)
Lemma wsum_absent (k : K) (m : list (K * Z)) :
  ~ In k (keys m) ->
  wsum (fun k' => if eqb k k' then 1 else 0)%Z m = 0%Z.
Proof.
  induction m as [|[k' v] m IH]; intros Hn; [reflexivity|].
  rewrite wsum_cons. simpl.
  destruct (eqb k k') eqn:E.
  - apply eqb_spec in E. subst k'. exfalso. apply Hn. now left.
  - rewrite IH; [lia|]. intros Hin. apply Hn. now right.
Qed.

Lemma get0_wsum (k : K) (m : list (K * Z)) :
  NoDup (keys m) ->
  get0 eqb k m = wsum (fun k' => if eqb k k' then 1 else 0)%Z m.
Proof.
  induction m as [|[k' v] m IH]; intros Hnd; [reflexivity|].
  inversion Hnd as [|? ? Hn Hnd']; subst.
  rewrite wsum_cons. cbn [get0 fst snd].
  destruct (eqb k k') eqn:E.
  - apply eqb_spec in E. subst k'.
    rewrite wsum_absent by assumption. lia.
  - rewrite IH by assumption. lia.
Qed.

(** The entry of [k] in [groupby_size l] is the number of occurrences of
    [k] in [l]. *)
Lemma get0_groupby (k : K) (l : list K) :
  get0 eqb k (groupby_size eqb leb l) = count (eqb k) l.
Proof.
  rewrite get0_wsum by apply NoDup_keys_groupby.
  rewrite wsum_groupby, count_as_sum. reflexivity.
Qed.

End TallyFacts.

(** ** Skeleton_Class._update_categories *)

Section UpdateCategories.

Import Py estimate.

Lemma np_max_ge (x : Z) (xs : list Z) :
  (x <= np_max x xs)%Z /\ (forall o, In o xs -> (o <= np_max x xs)%Z).
Proof.
  unfold np_max. revert x. induction xs as [|y xs IH]; intros x; simpl.
  - split; [lia | intros o []].
  - destruct (IH (Z.max x y)) as [H1 H2]. split; [lia|].
    intros o [<-|Hin]; [lia | now apply H2].
Qed.

(** What one call of [_update_categories] gives, case by case. *)
Lemma update_categories_inv (obs : Z) (more_obs : list Z) (z : Z) :
  let usr := Z.max z (np_max obs more_obs) in
  _update_categories obs more_obs (CatInt z)
  = Return (usr, if (z <? np_max obs more_obs)%Z
                 then [categories_warning] else [])
  /\ (obs <= usr)%Z /\ (forall o, In o more_obs -> (o <= usr)%Z)
  /\ _update_categories obs more_obs (CatInt usr) = Return (usr, [])
  /\ _update_categories obs more_obs CatNone
     = Return (np_max obs more_obs, [])
  /\ is_Return (_update_categories obs more_obs CatNotInt) = false.
Proof.
  intros usr. destruct (np_max_ge obs more_obs) as [H1 H2].
  unfold _update_categories, usr.
  repeat split.
  - destruct (z >? np_max obs more_obs)%Z eqn:E.
    + apply Z.gtb_lt in E.
      rewrite Z.max_l by lia.
      destruct (z <? np_max obs more_obs)%Z eqn:E'; [|reflexivity].
      apply Z.ltb_lt in E'. lia.
    + rewrite Z.gtb_ltb in E. apply Z.ltb_ge in E.
      rewrite Z.max_r by lia. reflexivity.
  - lia.
  - intros o Hin. specialize (H2 o Hin). lia.
  - destruct (Z.max z (np_max obs more_obs) >? np_max obs more_obs)%Z eqn:E.
    + reflexivity.
    + rewrite Z.gtb_ltb in E. apply Z.ltb_ge in E.
      assert (Z.max z (np_max obs more_obs) = np_max obs more_obs) as -> by lia.
      rewrite Z.ltb_irrefl. reflexivity.
Qed.

(** X10. [_update_categories] with an integer sets the number of
    categories to the larger of the request and the largest observed
    number: the result is never below any observed number, the warning is
    given exactly when the request is below the observed number, a failing
    [int()] is a [TypeError], [None] gives the observed number, and
    updating again with the result changes nothing and warns of nothing. *)
Theorem update_categories_max (obs : Z) (more_obs : list Z) (z : Z) :
  let usr := Z.max z (np_max obs more_obs) in
  _update_categories obs more_obs (CatInt z)
  = Return (usr, if (z <? np_max obs more_obs)%Z
                 then [categories_warning] else [])
  /\ (obs <= usr)%Z /\ (forall o, In o more_obs -> (o <= usr)%Z)
  /\ _update_categories obs more_obs (CatInt usr) = Return (usr, [])
  /\ _update_categories obs more_obs CatNone
     = Return (np_max obs more_obs, [])
  /\ is_Return (_update_categories obs more_obs CatNotInt) = false.
Proof.
  exact (update_categories_inv obs more_obs z).
Qed.

End UpdateCategories.

(** ** Experiment.__init__ *)

Section ExperimentFacts.

Import Py estimate Tally.

Lemma filter_length_le {X} (p : X -> bool) (l : list X) :
  (List.length (filter p l) <= List.length l)%nat.
Proof.
  induction l as [|x l IH]; simpl; [lia|]. destruct (p x); simpl; lia.
Qed.

Lemma count_partition (l : list Z) :
  (forall v, In v l -> (0 <= v)%Z) ->
  Z.of_nat (List.length l) = (count (Z.ltb 0) l + count (Z.eqb 0) l)%Z.
Proof.
  unfold count. induction l as [|v l IH]; intros H; [reflexivity|].
  assert (0 <= v)%Z by (apply H; now left).
  assert (IH' := IH (fun v Hv => H v (or_intror Hv))).
  cbn [filter List.length].
  destruct (Z.ltb_spec 0 v), (Z.eqb_spec 0 v); cbn [List.length]; lia.
Qed.

Lemma sum_ones {X} (l : list X) :
  Np.sum (map (fun _ => 1%Z) l) = Z.of_nat (List.length l).
Proof.
  induction l as [|x l IH]; [reflexivity|].
  cbn [map Np.sum fold_right List.length]. unfold Np.sum in IH. lia.
Qed.

(** What the constructor computes. *)
Lemma Experiment_init_inv (data : data_arg) (categories : Z) (ishist : bool)
      (e : Experiment) (w : list string) :
  Experiment_init data categories ishist = Return (e, w) ->
  let values := map snd (data_hist e) in
  let counts := groupby_size Z.eqb Z.leb values in
  load_data data ishist = Return (data_hist e, w)
  /\ tot_counts e = Np.sum values
  /\ obs_n_categ e = count (Z.ltb 0) values
  /\ usr_n_categ e = Z.max categories (Z.of_nat (List.length (data_hist e)))
  /\ obs_coincedences e
     = Np.sum (map snd (filter (fun e => (1 <? fst e)%Z) counts))
  /\ counts_hist e
     = if (usr_n_categ e >? obs_n_categ e)%Z then
         sort_index Z.leb
           (setitem Z.eqb 0%Z (usr_n_categ e - obs_n_categ e)%Z counts)
       else counts.
Proof.
  unfold Experiment_init.
  destruct (load_data data ishist) as [[s w0]|ex]; [|discriminate].
  cbn [bind fst snd].
  set (values := map snd s).
  set (obs := Z.of_nat (List.length (filter (Z.ltb 0) values))).
  set (cat := Z.max categories (Z.of_nat (List.length s))).
  assert (Hobs : (obs <= cat)%Z).
  { unfold obs, cat. pose proof (filter_length_le (Z.ltb 0) values) as H.
    unfold values in H at 2. rewrite length_map in H. lia. }
  destruct (update_categories_inv obs [] cat) as (Hup & _).
  rewrite Hup. cbn [bind fst snd np_max fold_left].
  assert (Hmax : Z.max cat obs = cat) by lia. rewrite Hmax.
  assert (Hlt : (cat <? obs)%Z = false) by (apply Z.ltb_ge; lia).
  rewrite Hlt, app_nil_r.
  intros [= <- <-]. cbn [data_hist tot_counts obs_n_categ usr_n_categ
                          obs_coincedences counts_hist].
  repeat split; reflexivity.
Qed.

End ExperimentFacts.

Section SetItemFacts.

Import estimate Tally.

Context {K : Type}.
Variable eqb : K -> K -> bool.
Variable leb : K -> K -> bool.
Hypothesis eqb_spec : forall x y, eqb x y = true <-> x = y.

Lemma keys_setitem (k : K) (v : Z) (m : list (K * Z)) :
  keys (setitem eqb k v m) = keys m
  \/ (~ In k (keys m) /\ keys (setitem eqb k v m) = (keys m ++ [k])%list).
Proof.
  induction m as [|[k' v'] m IH]; cbn [setitem].
  - right. split; [intros []|reflexivity].
  - destruct (eqb k k') eqn:E; [left; reflexivity|].
    destruct IH as [IH|[Hn IH]].
    + left. unfold keys in *. simpl. now rewrite IH.
    + right. split.
      * intros [Heq|Hin]; [|contradiction].
        simpl in Heq. subst k'.
        assert (eqb k k = true) by now apply eqb_spec. congruence.
      * unfold keys in *. simpl. now rewrite IH.
Qed.

Lemma NoDup_keys_setitem (k : K) (v : Z) (m : list (K * Z)) :
  NoDup (keys m) -> NoDup (keys (setitem eqb k v m)).
Proof.
  intros H. destruct (keys_setitem k v m) as [->|[Hn ->]]; [assumption|].
  apply NoDup_app; [assumption | repeat constructor; intros [] |].
  intros x Hx [<-|[]]. contradiction.
Qed.

Lemma NoDup_keys_sort (m : list (K * Z)) :
  NoDup (keys m) -> NoDup (keys (sort_index leb m)).
Proof.
  apply Permutation_NoDup. unfold keys. apply Permutation_map.
  symmetry. apply sort_index_perm.
Qed.

(** Reading back what was assigned, after the sort. *)
Lemma get0_sort_setitem (k : K) (v : Z) (m : list (K * Z)) :
  NoDup (keys m) ->
  get0 eqb k (sort_index leb (setitem eqb k v m)) = v.
Proof.
  intros Hnd.
  rewrite (get0_wsum eqb eqb_spec)
    by (apply NoDup_keys_sort, NoDup_keys_setitem, Hnd).
  rewrite wsum_sort_index, (wsum_setitem eqb eqb_spec).
  rewrite <- (get0_wsum eqb eqb_spec) by assumption.
  assert (eqb k k = true) as -> by now apply eqb_spec. lia.
Qed.

Lemma sum_filter_wsum (p : K -> bool) (m : list (K * Z)) :
  Np.sum (map snd (filter (fun e => p (fst e)) m))
  = wsum (fun k => if p k then 1 else 0)%Z m.
Proof.
  induction m as [|[k v] m IH]; [reflexivity|].
  rewrite wsum_cons. cbn [filter fst snd].
  destruct (p k); [|rewrite IH; lia].
  cbn [map snd].
  change (Np.sum (v :: map snd (filter (fun e => p (fst e)) m)))
    with (v + Np.sum (map snd (filter (fun e => p (fst e)) m)))%Z.
  rewrite IH. lia.
Qed.

End SetItemFacts.

Section ExperimentInvariants.

Import Py estimate Tally.
Local Open Scope string_scope.

(** X11. A successful [Experiment(data, categories)] has
    [usr_n_categ = max(categories, len(data_hist))], with
    [obs_n_categ <= len(data_hist) <= usr_n_categ], and never gives the
    warning that [categories] was reset to the observed number. *)
Theorem Experiment_categories (data : data_arg) (categories : Z)
        (ishist : bool) (e : Experiment) (w : list string) :
  Experiment_init data categories ishist = Return (e, w) ->
  usr_n_categ e = Z.max categories (Z.of_nat (List.length (data_hist e)))
  /\ (obs_n_categ e <= Z.of_nat (List.length (data_hist e)) <= usr_n_categ e)%Z
  /\ ~ In categories_warning w.
Proof.
  intros H. destruct (Experiment_init_inv _ _ _ _ _ H)
    as (Hload & _ & Hobs & Husr & _).
  split; [exact Husr|]. split.
  - rewrite Hobs, Husr. unfold count.
    pose proof (filter_length_le (Z.ltb 0) (map snd (data_hist e))) as Hle.
    rewrite length_map in Hle. lia.
  - destruct data as [d|first others|s|l|]; cbn [load_data] in Hload.
    + injection Hload as _ <-. intros [].
    + injection Hload as _ <-. destruct others; [intros []|].
      intros [Heq|[]]. discriminate.
    + injection Hload as _ <-. intros [].
    + destruct ishist; injection Hload as _ <-; intros [].
    + discriminate.
Qed.

Lemma Experiment_categories_witness :
  exists e w,
    Experiment_init (ListArg [3; 0; 1]%Z) 2%Z true = Return (e, w)
    /\ usr_n_categ e = 3%Z /\ ~ In categories_warning w.
Proof.
  eexists _, _. split; [reflexivity|].
  destruct (Experiment_categories (ListArg [3; 0; 1]%Z) 2%Z true _ _ eq_refl)
    as (H1 & _ & H3).
  split; [exact H1 | exact H3].
Defined.

(** X12. The table [counts_hist] of a successful [Experiment] accounts for
    the counts: the counts times their multiplicities sum to [tot_counts];
    and when no count is negative, the multiplicities sum to
    [usr_n_categ] and the entry of the count 0 is the number
    [usr_n_categ - obs_n_categ] of categories never observed (the zeros
    already in the data are not counted twice). *)
Theorem Experiment_counts_hist (data : data_arg) (categories : Z)
        (ishist : bool) (e : Experiment) (w : list string) :
  Experiment_init data categories ishist = Return (e, w) ->
  wsum (fun k => k) (counts_hist e) = tot_counts e
  /\ ((forall v, In v (map snd (data_hist e)) -> (0 <= v)%Z) ->
      total (counts_hist e) = usr_n_categ e
      /\ get0 Z.eqb 0%Z (counts_hist e)
         = (usr_n_categ e - obs_n_categ e)%Z).
Proof.
  intros H. destruct (Experiment_init_inv _ _ _ _ _ H)
    as (_ & Htot & Hobs & Husr & _ & Hcounts).
  set (values := map snd (data_hist e)) in *.
  assert (Hlen : Z.of_nat (List.length values)
                 = Z.of_nat (List.length (data_hist e)))
    by (unfold values; now rewrite length_map).
  assert (Hobs_le : (obs_n_categ e <= Z.of_nat (List.length values))%Z).
  { rewrite Hobs. unfold count.
    pose proof (filter_length_le (Z.ltb 0) values). lia. }
  assert (Hid : wsum (fun k => k) (groupby_size Z.eqb Z.leb values)
                = Np.sum values).
  { rewrite (wsum_groupby Z.eqb Z.leb Z.eqb_eq). now rewrite map_id. }
  assert (Hone : total (groupby_size Z.eqb Z.leb values)
                 = Z.of_nat (List.length values)).
  { rewrite total_wsum, (wsum_groupby Z.eqb Z.leb Z.eqb_eq).
    apply sum_ones. }
  assert (Hzero : get0 Z.eqb 0%Z (groupby_size Z.eqb Z.leb values)
                  = count (Z.eqb 0) values)
    by apply (get0_groupby Z.eqb Z.leb Z.eqb_eq).
  rewrite Hcounts.
  destruct (usr_n_categ e >? obs_n_categ e)%Z eqn:E.
  - split.
    + rewrite wsum_sort_index, (wsum_setitem Z.eqb Z.eqb_eq), Hid, Htot. lia.
    + intros Hpos. pose proof (count_partition values Hpos) as Hpart.
      split.
      * rewrite total_wsum, wsum_sort_index, (wsum_setitem Z.eqb Z.eqb_eq).
        rewrite <- total_wsum, Hone, Hzero. lia.
      * apply (get0_sort_setitem Z.eqb Z.leb Z.eqb_eq).
        apply (NoDup_keys_groupby Z.eqb Z.leb Z.eqb_eq).
  - rewrite Z.gtb_ltb in E. apply Z.ltb_ge in E.
    split; [now rewrite Hid, Htot|].
    intros Hpos. pose proof (count_partition values Hpos) as Hpart.
    assert (count (Z.eqb 0) values >= 0)%Z by (unfold count; lia).
    split.
    + rewrite Hone. lia.
    + rewrite Hzero. lia.
Qed.

Lemma Experiment_counts_hist_witness :
  exists e w,
    Experiment_init (ListArg [3; 0; 1]%Z) 5%Z true = Return (e, w)
    /\ total (counts_hist e) = usr_n_categ e
    /\ get0 Z.eqb 0%Z (counts_hist e) = (usr_n_categ e - obs_n_categ e)%Z.
Proof.
  eexists _, _. split; [reflexivity|].
  apply (Experiment_counts_hist (ListArg [3; 0; 1]%Z) 5%Z true _ _ eq_refl).
  intros v [<-|[<-|[<-|[]]]]; discriminate.
Defined.

(** X13. [obs_coincedences] is the number of categories observed more
    than once. *)
Theorem Experiment_coincidences (data : data_arg) (categories : Z)
        (ishist : bool) (e : Experiment) (w : list string) :
  Experiment_init data categories ishist = Return (e, w) ->
  obs_coincedences e = count (Z.ltb 1) (map snd (data_hist e)).
Proof.
  intros H. destruct (Experiment_init_inv _ _ _ _ _ H)
    as (_ & _ & _ & _ & Hco & _).
  rewrite Hco, (sum_filter_wsum (Z.ltb 1)).
  rewrite (wsum_groupby Z.eqb Z.leb Z.eqb_eq), count_as_sum. reflexivity.
Qed.

Lemma Experiment_coincidences_witness :
  exists e w,
    Experiment_init (ListArg [3; 0; 1; 2]%Z) 2%Z true = Return (e, w)
    /\ obs_coincedences e = count (Z.ltb 1) (map snd (data_hist e)).
Proof.
  eexists _, _. split; [reflexivity|].
  apply (Experiment_coincidences (ListArg [3; 0; 1; 2]%Z) 2%Z true _ _ eq_refl).
Defined.

End ExperimentInvariants.

(** ** Raw observations *)

Section RawObservations.

Import Py estimate Tally.

Lemma label_eqb_spec (a b : label) : label_eqb a b = true <-> a = b.
Proof.
  destruct a as [x|x], b as [y|y]; simpl.
  - rewrite Z.eqb_eq. split; [now intros -> | now intros [= ->]].
  - split; discriminate.
  - split; discriminate.
  - rewrite String.eqb_eq. split; [now intros -> | now intros [= ->]].
Qed.

Lemma get0_LInt (k : Z) (m : list (Z * Z)) :
  get0 label_eqb (LInt k) (map (fun e => (LInt (fst e), snd e)) m)
  = get0 Z.eqb k m.
Proof.
  induction m as [|[k' v] m IH]; [reflexivity|].
  cbn [map get0 fst snd label_eqb]. now rewrite IH.
Qed.

Lemma incr_positive {K} (eqb : K -> K -> bool) (k : K) (m : list (K * Z)) :
  Forall (fun e => (0 < snd e)%Z) m ->
  Forall (fun e => (0 < snd e)%Z) (incr eqb k m).
Proof.
  induction 1 as [|[k' v] m Hv Hm IH]; cbn [incr].
  - repeat constructor.
  - destruct (eqb k k'); constructor; simpl in *; try assumption; lia.
Qed.

Lemma groupby_positive {K} (eqb leb : K -> K -> bool) (l : list K) :
  Forall (fun e => (0 < snd e)%Z) (groupby_size eqb leb l).
Proof.
  unfold groupby_size.
  assert (H : forall m, Forall (fun e => (0 < snd e)%Z) m ->
              Forall (fun e => (0 < snd e)%Z)
                     (fold_left (fun m k => incr eqb k m) l m)).
  { induction l as [|k l IH]; intros m Hm; simpl; [assumption|].
    apply IH. now apply incr_positive. }
  apply Forall_forall. intros e Hin.
  apply (Permutation_in _ (sort_index_perm leb _)) in Hin.
  revert e Hin. apply Forall_forall, H. constructor.
Qed.

Lemma filter_all_length {X} (p : X -> bool) (l : list X) :
  Forall (fun x => p x = true) l ->
  List.length (filter p l) = List.length l.
Proof.
  induction 1 as [|x l Hx _ IH]; [reflexivity|].
  simpl. rewrite Hx. simpl. now rewrite IH.
Qed.

(** X14. From a list of raw observations ([ishist=False]) the
    constructor makes the histogram of the observations: each value is a
    label whose count is its number of occurrences, [tot_counts] is the
    number of observations and every label counts as observed. *)
Theorem Experiment_raw_observations (l : list Z) (categories : Z)
        (e : Experiment) (w : list string) :
  Experiment_init (ListArg l) categories false = Return (e, w) ->
  (forall k, get0 label_eqb (LInt k) (data_hist e) = count (Z.eqb k) l)
  /\ tot_counts e = Z.of_nat (List.length l)
  /\ obs_n_categ e = Z.of_nat (List.length (data_hist e)).
Proof.
  intros H. destruct (Experiment_init_inv _ _ _ _ _ H)
    as (Hload & Htot & Hobs & _).
  cbn [load_data] in Hload. injection Hload as Hdata _.
  assert (Hvalues : map snd (data_hist e)
                    = map snd (groupby_size Z.eqb Z.leb l)).
  { rewrite <- Hdata, map_map. reflexivity. }
  split; [|split].
  - intros k. rewrite <- Hdata, get0_LInt.
    apply (get0_groupby Z.eqb Z.leb Z.eqb_eq).
  - rewrite Htot, Hvalues.
    change (Np.sum (map snd (groupby_size Z.eqb Z.leb l)))
      with (total (groupby_size Z.eqb Z.leb l)).
    rewrite total_wsum, (wsum_groupby Z.eqb Z.leb Z.eqb_eq).
    apply sum_ones.
  - rewrite Hobs. unfold count. rewrite filter_all_length.
    + now rewrite length_map.
    + rewrite Hvalues. apply Forall_map.
      pose proof (groupby_positive Z.eqb Z.leb l) as Hpos.
      apply Forall_forall. intros x Hx.
      apply Z.ltb_lt. revert x Hx. now apply Forall_forall.
Qed.

Lemma Experiment_raw_observations_witness :
  exists e w,
    Experiment_init (ListArg [7; 4; 7; 7]%Z) 2%Z false = Return (e, w)
    /\ tot_counts e = 4%Z
    /\ get0 label_eqb (LInt 7) (data_hist e) = 3%Z.
Proof.
  eexists _, _. split; [reflexivity|].
  destruct (Experiment_raw_observations [7; 4; 7; 7]%Z 2%Z _ _ eq_refl)
    as (H1 & H2 & _).
  split; [exact H2 | exact (H1 7%Z)].
Defined.

End RawObservations.

(** ** Divergence.__init__ *)

Section ConcatFacts.

Import Py estimate Tally.

Lemma pair_eqb_spec (a b : Z * Z) : pair_eqb a b = true <-> a = b.
Proof.
  destruct a as [a1 a2], b as [b1 b2]. unfold pair_eqb. simpl.
  rewrite andb_true_iff, !Z.eqb_eq.
  split; [intros [-> ->]; reflexivity | intros [= -> ->]; now split].
Qed.

Lemma wsum_ext_in {K} (g h : K -> Z) (m : list (K * Z)) :
  (forall k, In k (keys m) -> g k = h k) -> wsum g m = wsum h m.
Proof.
  intros H. unfold wsum. f_equal. apply map_ext_in. intros e Hin.
  rewrite H; [reflexivity|]. unfold keys. now apply in_map.
Qed.

Lemma wsum_add {K} (g h : K -> Z) (m : list (K * Z)) :
  wsum (fun k => g k + h k)%Z m = (wsum g m + wsum h m)%Z.
Proof.
  induction m as [|e m IH]; [reflexivity|].
  rewrite !wsum_cons, IH. lia.
Qed.

Lemma wsum_zero {K} (m : list (K * Z)) : wsum (fun _ => 0%Z) m = 0%Z.
Proof.
  induction m as [|e m IH]; [reflexivity|]. rewrite wsum_cons, IH. lia.
Qed.

Lemma has_key_In (k : label) (s : Series) :
  has_key label_eqb k s = true <-> In k (keys s).
Proof.
  unfold has_key, keys. rewrite existsb_exists, in_map_iff. split.
  - intros (e & Hin & He). apply label_eqb_spec in He. now exists e.
  - intros (e & He & Hin). exists e. split; [assumption|].
    now apply label_eqb_spec.
Qed.

(** The counts of the labels of [s1], read in [s2], add up to the counts
    of [s2] on the labels they share. *)
Lemma matched_sum (s1 s2 : Series) :
  NoDup (keys s1) -> NoDup (keys s2) ->
  Np.sum (map (fun e => get0 label_eqb (fst e) s2) s1)
  = wsum (fun k => if has_key label_eqb k s1 then 1 else 0)%Z s2.
Proof.
  intros H1 H2. induction s1 as [|[l1 v1] s1 IH].
  - simpl. now rewrite wsum_zero.
  - inversion H1 as [|? ? Hn H1']; subst.
    cbn [map fst]. 
    change (Np.sum (get0 label_eqb l1 s2
                      :: map (fun e => get0 label_eqb (fst e) s2) s1))
      with (get0 label_eqb l1 s2
            + Np.sum (map (fun e => get0 label_eqb (fst e) s2) s1))%Z.
    rewrite (IH H1'), (get0_wsum label_eqb label_eqb_spec) by assumption.
    rewrite <- wsum_add. apply wsum_ext_in. intros k _.
    unfold has_key. cbn [existsb fst].
    fold (has_key label_eqb k s1).
    destruct (label_eqb l1 k) eqn:E1.
    + apply label_eqb_spec in E1. subst k.
      assert (label_eqb l1 l1 = true) as -> by now apply label_eqb_spec.
      destruct (has_key label_eqb l1 s1) eqn:E2; [|reflexivity].
      apply has_key_In in E2. contradiction.
    + destruct (label_eqb k l1) eqn:E3.
      * apply label_eqb_spec in E3. subst k.
        assert (label_eqb l1 l1 = true) by now apply label_eqb_spec.
        congruence.
      * simpl. destruct (has_key label_eqb k s1); reflexivity.
Qed.

Lemma sum_map_zero {X} (l : list X) : Np.sum (map (fun _ => 0%Z) l) = 0%Z.
Proof.
  induction l as [|x l IH]; [reflexivity|].
  cbn [map Np.sum fold_right]. unfold Np.sum in IH. lia.
Qed.

(** Each experiment's counts are all in the joined table, once. *)
Lemma concat_sum_fst (s1 s2 : Series) :
  Np.sum (map (fun r => fst (snd r)) (concat s1 s2)) = Np.sum (map snd s1).
Proof.
  unfold concat. rewrite map_app, sum_app, !map_map. cbn [fst snd].
  rewrite sum_map_zero, Z.add_0_r. reflexivity.
Qed.

Lemma concat_sum_snd (s1 s2 : Series) :
  NoDup (keys s1) -> NoDup (keys s2) ->
  Np.sum (map (fun r => snd (snd r)) (concat s1 s2)) = Np.sum (map snd s2).
Proof.
  intros H1 H2. unfold concat. rewrite map_app, sum_app, !map_map.
  cbn [fst snd]. rewrite (matched_sum s1 s2 H1 H2).
  change (map (fun x : label * Z => snd x)) with (map (@snd label Z)).
  rewrite (sum_filter_wsum (fun k => negb (has_key label_eqb k s1))).
  rewrite <- wsum_add.
  change (Np.sum (map snd s2)) with (total s2). rewrite total_wsum.
  apply wsum_ext_in. intros k _.
  destruct (has_key label_eqb k s1); reflexivity.
Qed.

End ConcatFacts.

Section DivergenceInit.

Import Py estimate Tally.

Lemma Experiment_init_returns (data : data_arg) (categories : Z)
      (ishist : bool) (s : Series) (w0 : list string) :
  load_data data ishist = Return (s, w0) ->
  exists e, Experiment_init data categories ishist = Return (e, w0).
Proof.
  intros Hload. unfold Experiment_init. rewrite Hload.
  cbn [bind fst snd].
  set (obs := Z.of_nat (List.length (filter (Z.ltb 0) (map snd s)))).
  set (cat := Z.max categories (Z.of_nat (List.length s))).
  assert (Hobs : (obs <= cat)%Z).
  { unfold obs, cat. pose proof (filter_length_le (Z.ltb 0) (map snd s)) as H.
    rewrite length_map in H. lia. }
  destruct (update_categories_inv obs [] cat) as (Hup & _).
  rewrite Hup. cbn [bind fst snd np_max fold_left].
  assert (Hlt : (cat <? obs)%Z = false) by (apply Z.ltb_ge; lia).
  rewrite Hlt, app_nil_r. eexists. reflexivity.
Qed.

(** The copies [exp_1], [exp_2]. *)
Lemma copy_experiment_inv (e : Experiment) (usr : Z) (counts : list (Z * Z)) :
  exists c w,
    copy_experiment e usr counts = Return (c, w)
    /\ data_hist c = data_hist e
    /\ counts_hist c = counts
    /\ tot_counts c = Np.sum (map snd (data_hist e))
    /\ obs_n_categ c = count (Z.ltb 0) (map snd (data_hist e))
    /\ usr_n_categ c = Z.max usr (obs_n_categ c)
    /\ ((obs_n_categ c <= usr)%Z -> w = []).
Proof.
  destruct (Experiment_init_returns (SeriesArg (data_hist e)) 2%Z true
              (data_hist e) [] eq_refl) as [made Hmade].
  destruct (Experiment_init_inv _ _ _ _ _ Hmade)
    as (Hload & Htot & Hobs & _).
  cbn [load_data] in Hload. injection Hload as Hdata.
  unfold copy_experiment. rewrite Hmade. cbn [bind fst snd].
  destruct (update_categories_inv (obs_n_categ made) [] usr) as (Hup & _).
  rewrite Hup. cbn [bind fst snd np_max fold_left app].
  eexists _, _. split; [reflexivity|].
  cbn [data_hist counts_hist tot_counts obs_n_categ usr_n_categ].
  rewrite Hdata. repeat split; try assumption; try reflexivity.
  intros Hle.
    assert ((usr <? obs_n_categ made)%Z = false) as ->
      by (apply Z.ltb_ge; lia).
    reflexivity.
Qed.

Lemma filter_map_length {X Y} (f : X -> Y) (p : Y -> bool) (l : list X) :
  List.length (filter (fun x => p (f x)) l)
  = List.length (filter p (map f l)).
Proof.
  induction l as [|x l IH]; [reflexivity|].
  simpl. destruct (p (f x)); simpl; now rewrite IH.
Qed.

(** What [Divergence.__init__] computes; it always succeeds on two
    experiments. *)
Lemma Divergence_init_inv (e1 e2 : Experiment) :
  let rows := map snd (concat (data_hist e1) (data_hist e2)) in
  let union := count (fun r => ((0 <? fst r) || (0 <? snd r))%Z) rows in
  let usr :=
    Z.max (Z.max (Z.max (usr_n_categ e1) (usr_n_categ e2)) union)
          (Z.max (Z.max (obs_n_categ e1) (obs_n_categ e2)) union) in
  let counts := groupby_size pair_eqb pair_leb rows in
  exists dv w,
    Divergence_init e1 e2 = Return (dv, w)
    /\ div_usr_n_categ dv = usr
    /\ div_obs_n_categ dv = (obs_n_categ e1, obs_n_categ e2, union)
    /\ div_tot_counts dv = (tot_counts e1, tot_counts e2)
    /\ div_counts_hist dv
       = (if (usr >? union)%Z then
            sort_index pair_leb
              (setitem pair_eqb (0, 0)%Z (usr - union)%Z counts)
          else counts)
    /\ counts_hist (exp_1 dv)
       = map (fun e => (fst (fst e), snd e)) (div_counts_hist dv)
    /\ counts_hist (exp_2 dv)
       = map (fun e => (snd (fst e), snd e)) (div_counts_hist dv)
    /\ tot_counts (exp_1 dv) = Np.sum (map snd (data_hist e1))
    /\ tot_counts (exp_2 dv) = Np.sum (map snd (data_hist e2))
    /\ usr_n_categ (exp_1 dv)
       = Z.max usr (count (Z.ltb 0) (map snd (data_hist e1)))
    /\ usr_n_categ (exp_2 dv)
       = Z.max usr (count (Z.ltb 0) (map snd (data_hist e2)))
    /\ ((Z.max (obs_n_categ e1) (obs_n_categ e2) <= union)%Z ->
        (count (Z.ltb 0) (map snd (data_hist e1)) <= union)%Z ->
        (count (Z.ltb 0) (map snd (data_hist e2)) <= union)%Z ->
        w = []).
Proof.
  intros rows union usr counts. unfold Divergence_init.
  set (df := concat (data_hist e1) (data_hist e2)).
  assert (Hunion :
            Z.of_nat (List.length
                        (filter (fun e => ((0 <? fst (snd e))
                                           || (0 <? snd (snd e)))%Z) df))
            = union).
  { unfold union, count, rows.
    now rewrite <- (filter_map_length snd
                      (fun r => ((0 <? fst r) || (0 <? snd r))%Z)). }
  rewrite Hunion.
  destruct (update_categories_inv (obs_n_categ e1) [obs_n_categ e2; union]
              (np_max (usr_n_categ e1) [usr_n_categ e2; union]))
    as (Hup & _).
  rewrite Hup. cbn [bind fst snd np_max fold_left]. fold usr.
  change (groupby_size pair_eqb pair_leb (map snd df)) with counts.
  set (table := if (usr >? union)%Z then _ else counts).
  destruct (copy_experiment_inv e1 usr
              (map (fun e => (fst (fst e), snd e)) table))
    as (c1 & w1 & -> & _ & Hc1 & Ht1 & Ho1 & Hu1 & Hw1).
  destruct (copy_experiment_inv e2 usr
              (map (fun e => (snd (fst e), snd e)) table))
    as (c2 & w2 & -> & _ & Hc2 & Ht2 & Ho2 & Hu2 & Hw2).
  cbn [bind fst snd]. eexists _, _. split; [reflexivity|].
  cbn [div_usr_n_categ div_obs_n_categ div_tot_counts div_counts_hist
       exp_1 exp_2].
  rewrite Ho1 in Hu1, Hw1. rewrite Ho2 in Hu2, Hw2.
  repeat split; try assumption; try reflexivity.
  intros Hobs H1 H2.
  rewrite Hw1, Hw2 by (unfold usr; lia).
  assert ((Z.max (Z.max (usr_n_categ e1) (usr_n_categ e2)) union
           <? Z.max (Z.max (obs_n_categ e1) (obs_n_categ e2)) union)%Z
          = false) as -> by (apply Z.ltb_ge; lia).
  reflexivity.
Qed.

End DivergenceInit.

Section DivergenceInvariants.

Import Py estimate Tally.

Lemma wsum_map_key {K K'} (f : K -> K') (g : K' -> Z) (m : list (K * Z)) :
  wsum g (map (fun e => (f (fst e), snd e)) m) = wsum (fun k => g (f k)) m.
Proof.
  unfold wsum. rewrite map_map. reflexivity.
Qed.

Lemma total_map_key {K K'} (f : K -> K') (m : list (K * Z)) :
  total (map (fun e => (f (fst e), snd e)) m) = total m.
Proof.
  unfold total. rewrite map_map. reflexivity.
Qed.

(** The table of pairs before and after the entry of (0, 0) is set. *)
Lemma pair_table_wsum (g : Z * Z -> Z) (b : bool) (v : Z)
      (rows : list (Z * Z)) :
  g (0, 0)%Z = 0%Z ->
  wsum g (if b then
            sort_index pair_leb
              (setitem pair_eqb (0, 0)%Z v
                       (groupby_size pair_eqb pair_leb rows))
          else groupby_size pair_eqb pair_leb rows)
  = Np.sum (map g rows).
Proof.
  intros Hg. destruct b.
  - rewrite wsum_sort_index, (wsum_setitem pair_eqb pair_eqb_spec), Hg.
    rewrite (wsum_groupby pair_eqb pair_leb pair_eqb_spec). lia.
  - apply (wsum_groupby pair_eqb pair_leb pair_eqb_spec).
Qed.

(** X15. After [Divergence(exp_1, exp_2)] on experiments with unique
    labels, the table [counts_hist] of pairs of counts accounts for the
    counts of both experiments: its multiplicities times the first
    (second) count sum to the total of the first (second) experiment, in
    the table of the divergence and in the tables handed to the copies
    [exp_1] and [exp_2]; [tot_counts] repeats these totals whenever the
    experiments carry their own. *)
Theorem Divergence_counts_totals (e1 e2 : Experiment) (dv : Divergence)
        (w : list string) :
  NoDup (keys (data_hist e1)) -> NoDup (keys (data_hist e2)) ->
  Divergence_init e1 e2 = Return (dv, w) ->
  wsum fst (div_counts_hist dv) = tot_counts (exp_1 dv)
  /\ wsum snd (div_counts_hist dv) = tot_counts (exp_2 dv)
  /\ wsum (fun k => k) (counts_hist (exp_1 dv)) = tot_counts (exp_1 dv)
  /\ wsum (fun k => k) (counts_hist (exp_2 dv)) = tot_counts (exp_2 dv)
  /\ (tot_counts e1 = Np.sum (map snd (data_hist e1)) ->
      tot_counts e2 = Np.sum (map snd (data_hist e2)) ->
      div_tot_counts dv = (tot_counts (exp_1 dv), tot_counts (exp_2 dv))).
Proof.
  intros Hn1 Hn2 H.
  destruct (Divergence_init_inv e1 e2)
    as (dv' & w' & H' & _ & _ & Htot & Htab & Hc1 & Hc2 & Ht1 & Ht2 & _).
  rewrite H in H'. injection H' as <- <-.
  assert (H1 : wsum fst (div_counts_hist dv) = tot_counts (exp_1 dv)).
  { rewrite Htab, pair_table_wsum by reflexivity.
    rewrite map_map, Ht1. apply concat_sum_fst. }
  assert (H2 : wsum snd (div_counts_hist dv) = tot_counts (exp_2 dv)).
  { rewrite Htab, pair_table_wsum by reflexivity.
    rewrite map_map, Ht2. now apply concat_sum_snd. }
  repeat split; try assumption.
  - rewrite Hc1, (wsum_map_key fst). exact H1.
  - rewrite Hc2, (wsum_map_key snd). exact H2.
  - intros E1 E2. rewrite Htot, Ht1, Ht2, E1, E2. reflexivity.
Qed.

Lemma get0_nonneg {K} (eqb : K -> K -> bool) (k : K) (m : list (K * Z)) :
  (forall v, In v (map snd m) -> (0 <= v)%Z) -> (0 <= get0 eqb k m)%Z.
Proof.
  induction m as [|[k' v] m IH]; intros H; cbn [get0]; [lia|].
  destruct (eqb k k').
  - apply H. now left.
  - apply IH. intros v' Hv'. apply H. now right.
Qed.

Lemma concat_nonneg (s1 s2 : Series) :
  (forall v, In v (map snd s1) -> (0 <= v)%Z) ->
  (forall v, In v (map snd s2) -> (0 <= v)%Z) ->
  forall r, In r (map snd (concat s1 s2)) ->
            (0 <= fst r)%Z /\ (0 <= snd r)%Z.
Proof.
  intros H1 H2 r Hin. unfold concat in Hin.
  rewrite map_app, !map_map in Hin. apply in_app_or in Hin.
  destruct Hin as [Hin|Hin]; apply in_map_iff in Hin;
    destruct Hin as (e & <- & Hin); cbn [fst snd].
  - split; [apply H1; now apply in_map|now apply get0_nonneg].
  - apply filter_In in Hin. destruct Hin as [Hin _].
    split; [lia | apply H2; now apply in_map].
Qed.

Lemma pair_partition (rows : list (Z * Z)) :
  (forall r, In r rows -> (0 <= fst r)%Z /\ (0 <= snd r)%Z) ->
  Z.of_nat (List.length rows)
  = (count (fun r => ((0 <? fst r) || (0 <? snd r))%Z) rows
     + count (pair_eqb (0, 0)%Z) rows)%Z.
Proof.
  unfold count. induction rows as [|[a b] rows IH]; intros H; [reflexivity|].
  destruct (H (a, b) (or_introl eq_refl)) as [Ha Hb]. simpl in Ha, Hb.
  assert (IH' := IH (fun r Hr => H r (or_intror Hr))).
  cbn [filter List.length fst snd]. unfold pair_eqb at 1. cbn [fst snd].
  destruct (Z.ltb_spec 0 a), (Z.ltb_spec 0 b), (Z.eqb_spec 0 a),
    (Z.eqb_spec 0 b); cbn [orb andb List.length]; lia.
Qed.

(** X16. When labels are unique and no count is negative, the
    multiplicities of the table of a [Divergence] sum to [usr_n_categ] as
    soon as [usr_n_categ] exceeds the number of categories observed in
    either experiment; otherwise the
    entry of (0, 0) is left as counted, and the sum exceeds [usr_n_categ]
    by the number of labels with a zero count in both experiments. The
    tables of the copies [exp_1], [exp_2] have the same sum. *)
Theorem Divergence_counts_sum (e1 e2 : Experiment) (dv : Divergence)
        (w : list string) :
  NoDup (keys (data_hist e1)) -> NoDup (keys (data_hist e2)) ->
  (forall v, In v (map snd (data_hist e1)) -> (0 <= v)%Z) ->
  (forall v, In v (map snd (data_hist e2)) -> (0 <= v)%Z) ->
  Divergence_init e1 e2 = Return (dv, w) ->
  let union := snd (div_obs_n_categ dv) in
  let zeros := count (pair_eqb (0, 0)%Z)
                     (map snd (concat (data_hist e1) (data_hist e2))) in
  (union <= div_usr_n_categ dv)%Z
  /\ total (div_counts_hist dv)
     = (if (div_usr_n_categ dv >? union)%Z then div_usr_n_categ dv
        else div_usr_n_categ dv + zeros)%Z
  /\ total (counts_hist (exp_1 dv)) = total (div_counts_hist dv)
  /\ total (counts_hist (exp_2 dv)) = total (div_counts_hist dv).
Proof.
  intros _ _ Hp1 Hp2 H.
  destruct (Divergence_init_inv e1 e2)
    as (dv' & w' & H' & Husr & Hobs & _ & Htab & Hc1 & Hc2 & _).
  rewrite H in H'. injection H' as <- <-.
  intros union zeros. unfold union. rewrite Hobs. cbn [snd].
  set (rows := map snd (concat (data_hist e1) (data_hist e2))) in *.
  set (un := count (fun r => ((0 <? fst r) || (0 <? snd r))%Z) rows) in *.
  pose proof (pair_partition rows (concat_nonneg _ _ Hp1 Hp2)) as Hpart.
  fold un in Hpart. fold zeros in Hpart.
  assert (Hlen : total (groupby_size pair_eqb pair_leb rows)
                 = Z.of_nat (List.length rows)).
  { rewrite total_wsum, (wsum_groupby pair_eqb pair_leb pair_eqb_spec).
    apply sum_ones. }
  assert (Hz : get0 pair_eqb (0, 0)%Z (groupby_size pair_eqb pair_leb rows)
               = zeros)
    by apply (get0_groupby pair_eqb pair_leb pair_eqb_spec).
  split; [rewrite Husr; lia|]. split.
  - rewrite Htab, Husr.
    match goal with |- context [(?u >? un)%Z] => set (usr := u) in * end.
    destruct (usr >? un)%Z eqn:E.
    + rewrite total_wsum, wsum_sort_index,
        (wsum_setitem pair_eqb pair_eqb_spec).
      rewrite <- total_wsum, Hlen, Hz. lia.
    + rewrite Z.gtb_ltb in E. apply Z.ltb_ge in E.
      rewrite Hlen. unfold usr in *. lia.
  - rewrite Hc1, Hc2, !total_map_key. split; reflexivity.
Qed.

End DivergenceInvariants.

Section DivergenceCategories.

Import Py estimate Tally EstimateExamples.

Lemma exp_a_built :
  Experiment_init (DictArg [(LStr "x", 2); (LStr "y", 0)]%Z) 2%Z true
  = Return (exp_a, []).
Proof. reflexivity. Qed.

Lemma exp_b_built :
  Experiment_init (DictArg [(LStr "y", 1); (LStr "z", 3)]%Z) 2%Z true
  = Return (exp_b, []).
Proof. reflexivity. Qed.

Lemma exp_a_labels : NoDup (keys (data_hist exp_a)).
Proof.
  repeat constructor; simpl; intuition discriminate.
Defined.

Lemma exp_b_labels : NoDup (keys (data_hist exp_b)).
Proof.
  repeat constructor; simpl; intuition discriminate.
Defined.

Lemma exp_a_counts :
  forall v, In v (map snd (data_hist exp_a)) -> (0 <= v)%Z.
Proof.
  intros v [<-|[<-|[]]]; discriminate.
Defined.

Lemma exp_b_counts :
  forall v, In v (map snd (data_hist exp_b)) -> (0 <= v)%Z.
Proof.
  intros v [<-|[<-|[]]]; discriminate.
Defined.

Lemma Divergence_counts_totals_witness :
  exists dv w,
    Divergence_init exp_a exp_b = Return (dv, w)
    /\ wsum fst (div_counts_hist dv) = tot_counts (exp_1 dv)
    /\ wsum snd (div_counts_hist dv) = tot_counts (exp_2 dv).
Proof.
  eexists _, _. split; [reflexivity|].
  destruct (Divergence_counts_totals exp_a exp_b _ _
              exp_a_labels exp_b_labels eq_refl) as (H1 & H2 & _).
  split; [exact H1 | exact H2].
Defined.

Lemma Divergence_counts_sum_witness :
  exists dv w,
    Divergence_init exp_a exp_b = Return (dv, w)
    /\ (snd (div_obs_n_categ dv) <= div_usr_n_categ dv)%Z
    /\ total (counts_hist (exp_1 dv)) = total (div_counts_hist dv).
Proof.
  eexists _, _. split; [reflexivity|].
  destruct (Divergence_counts_sum exp_a exp_b _ _
              exp_a_labels exp_b_labels exp_a_counts exp_b_counts eq_refl)
    as (H1 & _ & H3 & _).
  split; [exact H1 | exact H3].
Defined.

Lemma sum_map_le {X} (f g : X -> Z) (l : list X) :
  (forall x, In x l -> (f x <= g x)%Z) ->
  (Np.sum (map f l) <= Np.sum (map g l))%Z.
Proof.
  induction l as [|x l IH]; intros H; [simpl; lia|].
  assert (f x <= g x)%Z by (apply H; now left).
  assert (Np.sum (map f l) <= Np.sum (map g l))%Z
    by (apply IH; intros; apply H; now right).
  cbn [map]. unfold Np.sum in *. cbn [fold_right]. lia.
Qed.

Lemma sum_map_nonneg' {X} (f : X -> Z) (l : list X) :
  (forall x, (0 <= f x)%Z) -> (0 <= Np.sum (map f l))%Z.
Proof.
  intros H. apply sum_map_nonneg. intros; apply H.
Qed.

(** The table of the union has at least the categories observed in the
    first experiment. *)
Lemma obs1_le_union (s1 s2 : Series) :
  (count (Z.ltb 0) (map snd s1)
   <= count (fun r => ((0 <? fst r) || (0 <? snd r))%Z)
            (map snd (concat s1 s2)))%Z.
Proof.
  rewrite !count_as_sum. unfold concat.
  rewrite !map_app, sum_app, !map_map. cbn [fst snd].
  assert (H2 : (0 <= Np.sum
                  (map (fun x : label * Z =>
                          if ((0 <? 0) || (0 <? snd x))%Z then 1 else 0)
                       (filter (fun e => negb (has_key label_eqb (fst e) s1))
                               s2)))%Z).
  { apply sum_map_nonneg'. intros x. destruct (_ || _)%bool; lia. }
  assert (H1 : (Np.sum (map (fun x : label * Z =>
                               if (0 <? snd x)%Z then 1 else 0) s1)
                <= Np.sum
                     (map (fun x : label * Z =>
                             if ((0 <? snd x)
                                 || (0 <? get0 label_eqb (fst x) s2))%Z
                             then 1 else 0) s1))%Z).
  { apply sum_map_le. intros x _.
    destruct (0 <? snd x)%Z, (0 <? get0 label_eqb (fst x) s2)%Z; simpl; lia. }
  lia.
Qed.

Lemma get0_indicator (k : label) (s : Series) :
  get0 label_eqb k
       (map (fun e => (fst e, if (0 <? snd e)%Z then 1 else 0)%Z) s)
  = (if (0 <? get0 label_eqb k s)%Z then 1 else 0)%Z.
Proof.
  induction s as [|[l v] s IH]; [reflexivity|].
  cbn [map get0 fst snd]. destruct (label_eqb k l); [reflexivity | exact IH].
Qed.

(** And, with unique labels, those observed in the second. *)
Lemma obs2_le_union (s1 s2 : Series) :
  NoDup (keys s1) -> NoDup (keys s2) ->
  (count (Z.ltb 0) (map snd s2)
   <= count (fun r => ((0 <? fst r) || (0 <? snd r))%Z)
            (map snd (concat s1 s2)))%Z.
Proof.
  intros Hn1 Hn2.
  set (s2p := map (fun e => (fst e, if (0 <? snd e)%Z then 1 else 0)%Z) s2).
  assert (Hkeys : keys s2p = keys s2).
  { unfold keys, s2p. rewrite map_map. reflexivity. }
  assert (Hn2p : NoDup (keys s2p)) by now rewrite Hkeys.
  assert (Hcount : count (Z.ltb 0) (map snd s2) = Np.sum (map snd s2p)).
  { rewrite count_as_sum. unfold s2p. rewrite !map_map. reflexivity. }
  rewrite Hcount, <- (concat_sum_snd s1 s2p Hn1 Hn2p).
  rewrite count_as_sum. unfold concat.
  rewrite !map_app, !sum_app, !map_map. cbn [fst snd].
  assert (H1 : (Np.sum (map (fun x : label * Z => get0 label_eqb (fst x) s2p)
                            s1)
                <= Np.sum
                     (map (fun x : label * Z =>
                             if ((0 <? snd x)
                                 || (0 <? get0 label_eqb (fst x) s2))%Z
                             then 1 else 0) s1))%Z).
  { apply sum_map_le. intros x _. unfold s2p. rewrite get0_indicator.
    destruct (0 <? snd x)%Z, (0 <? get0 label_eqb (fst x) s2)%Z; simpl; lia. }
  assert (H2 : Np.sum (map (fun x : label * Z => snd x)
                           (filter (fun e => negb (has_key label_eqb (fst e) s1))
                                   s2p))
               = Np.sum
                   (map (fun x : label * Z =>
                           if ((0 <? 0) || (0 <? snd x))%Z then 1%Z else 0%Z)
                        (filter (fun e => negb (has_key label_eqb (fst e) s1))
                                s2))).
  { unfold s2p. rewrite filter_map_swap, map_map. reflexivity. }
  lia.
Qed.

(** X17. After [Divergence(exp_1, exp_2)] on two experiments with unique
    labels (and their own observed numbers), the number of categories is
    the largest of the two experiments' numbers and of the number of
    categories observed in either; it is never below an observed number,
    no warning is given, and both copies [exp_1], [exp_2] carry that same
    number of categories. *)
Theorem Divergence_categories (e1 e2 : Experiment) (dv : Divergence)
        (w : list string) :
  NoDup (keys (data_hist e1)) -> NoDup (keys (data_hist e2)) ->
  obs_n_categ e1 = count (Z.ltb 0) (map snd (data_hist e1)) ->
  obs_n_categ e2 = count (Z.ltb 0) (map snd (data_hist e2)) ->
  Divergence_init e1 e2 = Return (dv, w) ->
  let union := snd (div_obs_n_categ dv) in
  div_usr_n_categ dv
  = Z.max (Z.max (usr_n_categ e1) (usr_n_categ e2)) union
  /\ (obs_n_categ e1 <= union)%Z /\ (obs_n_categ e2 <= union)%Z
  /\ usr_n_categ (exp_1 dv) = div_usr_n_categ dv
  /\ usr_n_categ (exp_2 dv) = div_usr_n_categ dv
  /\ w = [].
Proof.
  intros Hn1 Hn2 Ho1 Ho2 H.
  destruct (Divergence_init_inv e1 e2)
    as (dv' & w' & H' & Husr & Hobs & _ & _ & _ & _ & _ & _ & Hu1 & Hu2 & Hw).
  rewrite H in H'. injection H' as <- <-.
  intros union. unfold union. rewrite Hobs. cbn [snd].
  pose proof (obs1_le_union (data_hist e1) (data_hist e2)) as Hle1.
  pose proof (obs2_le_union (data_hist e1) (data_hist e2) Hn1 Hn2) as Hle2.
  rewrite <- Ho1 in Hle1, Hu1. rewrite <- Ho2 in Hle2, Hu2.
  rewrite Husr, Hu1, Hu2.
  repeat split; try lia.
  apply Hw; lia.
Qed.

Lemma Divergence_categories_witness :
  exists dv w,
    Divergence_init exp_a exp_b = Return (dv, w)
    /\ div_usr_n_categ dv = 3%Z
    /\ usr_n_categ (exp_1 dv) = div_usr_n_categ dv
    /\ w = [].
Proof.
  eexists _, _. split; [reflexivity|].
  destruct (Divergence_categories exp_a exp_b _ _ exp_a_labels exp_b_labels
              eq_refl eq_refl eq_refl) as (H1 & _ & _ & H4 & _ & H6).
  split; [exact H1|]. split; [exact H4 | exact H6].
Defined.

End DivergenceCategories.
